(** * aws_lambda_builders.workflow: the base workflow

    A shallow embedding of [src/aws_lambda_builders/workflow.py]: the
    [sanitize] decorator (the binary validation gate), the metaclass that
    registers workflow classes, the lazily computed [binaries] property and
    [BaseWorkflow.run].

    Conventions of the embedding.
    - Python values that the code inspects by truthiness, [isinstance] or
      iteration are values of [PyVal].
    - The collaborators (resolvers, validators, actions) are deterministic
      oracles; every call the workflow makes to one of them is appended to
      the [calls] log of the state, in program order.
    - Exceptions are results: a computation is a function from the state to
      an outcome and the state it leaves behind, so that the mutations made
      before an exception are still visible after it.
    - Exceptions raised by collaborators are instances of [Exception]; the
      interpreter's exit signals are outside the embedding. *)

From stdpp Require Import base option list strings gmap.

(** ** Python values *)

(** [Capability = namedtuple('Capability', ["language", "dependency_manager",
    "application_framework"])]: an instance always carries the three
    components. *)
Record Capability := mkCapability {
  language : string;
  dependency_manager : string;
  application_framework : option string
}.

#[global] Instance Capability_eq_dec : EqDecision Capability.
Proof. solve_decision. Defined.

#[global] Instance Capability_countable : Countable Capability.
Proof.
  refine (inj_countable'
    (fun c => (language c, dependency_manager c, application_framework c))
    (fun t => match t with (l, d, a) => mkCapability l d a end) _).
  intros []; reflexivity.
Defined.

(** The values the gate handles: [None], a string, a list of strings. *)
Inductive PyVal :=
  | PyNone
  | PyStr (s : string)
  | PyList (l : list string).

(** The value of a class attribute that may hold a [Capability]. *)
Inductive PyObj :=
  | Plain (v : PyVal)
  | CapabilityObj (c : Capability).

(** Truth value testing, as [if valid_path:] and [if not self._binaries:]
    apply it: [None], the empty string and the empty list are false. *)
Definition truthy (v : PyVal) : bool :=
  match v with
  | PyNone => false
  | PyStr s => negb (String.eqb s EmptyString)
  | PyList l => negb (bool_decide (l = []))
  end.

(** ** Exceptions and outcomes *)

(** The class of an exception raised by a collaborator, as far as the
    [except] clauses of this module tell classes apart. *)
Inductive ExnClass :=
  | MisMatchRuntimeError
  | ActionFailedError
  | OtherException (cls : string).

(** An exception raised by a collaborator: its class and [str(ex)]. *)
Record PyExn := mkExn { exn_class : ExnClass; exn_str : string }.

(** What leaves this module: the two workflow-level errors it constructs,
    and anything it does not catch. *)
Inductive Exn :=
  | WorkflowFailedError (workflow_name : PyVal) (action_name : option string) (reason : string)
  | WorkflowUnknownError (workflow_name : PyVal) (action_name : option string) (reason : string)
  | Uncaught (ex : PyExn).

Inductive Outcome (E A : Type) :=
  | Return (a : A)
  | Raise (e : E).
Arguments Return {E A} a.
Arguments Raise {E A} e.

(** ** Collaborators *)

Module Resolver.
(** Modelled from the spec: the resolver classes are not in this module;
    a Resolver exposes a logical binary name and an ordered sequence of
    candidate paths. *)
Record t := mk { binary : string; exec_paths : list string }.
End Resolver.

Module Validator.
(** Modelled from the spec: the validator classes are not in this module;
    [validate(path)] returns a value or raises. *)
Record t := mk { validate : string -> Outcome PyExn PyVal }.
End Validator.

Module BinaryPath.
(** Modelled from the spec: the [BinaryPath] class is not in this module.
    It binds a logical binary name to one resolver and one validator;
    [binary_path] is the attribute the gate iterates when [path_provided]
    is set and assigns once a candidate validates. *)
Record t := mk {
  resolver : Resolver.t;
  validator : Validator.t;
  binary : string;
  binary_path : PyVal;
  path_provided : bool
}.

(** Modelled from the spec: assignment to the attribute,
    [bp.binary_path = v]; the resolved path is the one mutable field. *)
Definition set_binary_path (v : PyVal) (bp : t) : t :=
  mk (resolver bp) (validator bp) (binary bp) v (path_provided bp).

(** Modelled from the spec: the constructor as the [binaries] property
    calls it, [BinaryPath(resolver=r, validator=v, binary=b)], without an
    override path. *)
Definition new (r : Resolver.t) (v : Validator.t) (b : string) : t :=
  mk r v b PyNone false.
End BinaryPath.

Module Action.
(** Modelled from the spec: the action classes are not in this module;
    an Action has a name and an [execute] operation that completes or
    raises. *)
Record t := mk { NAME : string; execute : Outcome PyExn unit }.
End Action.

(** ** Dictionaries keyed by binary name

    A [dict] from names to [BinaryPath] objects, as the list of its items in
    iteration (insertion) order, without duplicate keys; each key holds an
    object of its own. *)
Definition Dict := list (string * BinaryPath.t).

(** [d[k] = v]: replaces the value of an existing key in place, appends a
    new key. *)
Fixpoint dict_set (k : string) (v : BinaryPath.t) (d : Dict) : Dict :=
  match d with
  | [] => [(k, v)]
  | (k', v') :: d' =>
      if String.eqb k k' then (k, v) :: d' else (k', v') :: dict_set k v d'
  end.

Fixpoint dict_get (k : string) (d : Dict) : option BinaryPath.t :=
  match d with
  | [] => None
  | (k', v') :: d' => if String.eqb k k' then Some v' else dict_get k d'
  end.

(** Mutation of the object stored under [k]: every reference to the
    dictionary sees it. *)
Fixpoint dict_update (k : string) (f : BinaryPath.t -> BinaryPath.t) (d : Dict) : Dict :=
  match d with
  | [] => []
  | (k', v') :: d' =>
      if String.eqb k k' then (k', f v') :: d' else (k', v') :: dict_update k f d'
  end.

(** [{resolver.binary: BinaryPath(resolver=resolver, validator=validator,
      binary=resolver.binary) for resolver, validator in zip(resolvers, validators)}] *)
Definition binaries_of (resolvers : list Resolver.t) (validators : list Validator.t) : Dict :=
  fold_left
    (fun d rv => dict_set (Resolver.binary rv.1)
                   (BinaryPath.new rv.1 rv.2 (Resolver.binary rv.1)) d)
    (zip resolvers validators) [].

(** ** Workflow instances *)

Module Workflow.
(** The attributes of a [BaseWorkflow] instance that [run] and [binaries]
    read or write. [get_resolvers] and [get_validators] are the lists the
    two overridable methods return. *)
Record t := mk {
  NAME : PyVal;
  actions : list Action.t;
  _binaries : Dict;
  get_resolvers : list Resolver.t;
  get_validators : list Validator.t
}.

Definition set_binaries (b : Dict) (w : t) : t :=
  mk (NAME w) (actions w) b (get_resolvers w) (get_validators w).
End Workflow.

(** Calls made to the collaborators, in program order. *)
Inductive Event :=
  | CallGetResolvers
  | CallGetValidators
  | ReadExecPaths (resolver : Resolver.t)
  | CallValidate (binary : string) (executable_path : string)
  | CallExecute (action : Action.t).

Record State := mkState { self : Workflow.t; calls : list Event }.

(** ** Computations: state and exceptions *)

Definition M (A : Type) : Type := State -> Outcome Exn A * State.

Definition ret {A} (a : A) : M A := fun st => (Return a, st).

Definition raise {A} (e : Exn) : M A := fun st => (Raise e, st).

Definition bind {A B} (m : M A) (k : A -> M B) : M B :=
  fun st =>
    match m st with
    | (Return a, st') => k a st'
    | (Raise e, st') => (Raise e, st')
    end.

Notation "'let*' x ':=' m 'in' k" := (bind m (fun x => k))
  (at level 10, x name, m at level 100, k at level 200).
Notation "'do' m 'then' k" := (bind m (fun _ => k))
  (at level 10, m at level 100, k at level 200).

Definition get_self : M Workflow.t := fun st => (Return (self st), st).

Definition modify_self (f : Workflow.t -> Workflow.t) : M unit :=
  fun st => (Return tt, mkState (f (self st)) (calls st)).

Definition emit (e : Event) : M unit :=
  fun st => (Return tt, mkState (self st) (calls st ++ [e])).

Definition lift {A} (r : Outcome PyExn A) : M A :=
  match r with
  | Return a => ret a
  | Raise ex => raise (Uncaught ex)
  end.

(** ** The [binaries] property *)

(** Getter, lines 200-206: an empty [_binaries] is false, so it is
    (re)computed from the two extension points; then [self._binaries] is
    returned. *)
Definition binaries : M Dict :=
  let* w := get_self in
  do (if bool_decide (Workflow._binaries w = []) then
        do emit CallGetResolvers then
        let resolvers := Workflow.get_resolvers w in
        do emit CallGetValidators then
        let validators := Workflow.get_validators w in
        modify_self (Workflow.set_binaries (binaries_of resolvers validators))
      else ret tt) then
  let* w' := get_self in
  ret (Workflow._binaries w').

(** Setter: [self._binaries = binaries]. *)
Definition binaries_setter (b : Dict) : M unit :=
  modify_self (Workflow.set_binaries b).

(** ** The validation gate: [sanitize] *)

(** [for x in v]: the items a [for] loop draws from a value. A string
    yields its characters, [None] is not iterable. *)
Definition iterate (v : PyVal) : Outcome PyExn (list string) :=
  match v with
  | PyList l => Return l
  | PyStr s => Return ((fun c => String c EmptyString) <$> String.list_ascii_of_string s)
  | PyNone => Raise (mkExn (OtherException "TypeError") "'NoneType' object is not iterable")
  end.

(** [binary_path.binary_path = valid_path], on the object stored under
    [binary] in [self._binaries] (which [binaries_copy] aliases). *)
Definition assign_binary_path (binary : string) (valid_path : PyVal) : M unit :=
  modify_self (fun w =>
    Workflow.set_binaries
      (dict_update binary (BinaryPath.set_binary_path valid_path) (Workflow._binaries w)) w).

(** The inner loop, lines 43-53: returns [valid_paths] as the loop leaves
    it. *)
Fixpoint for_executable_path (binary : string) (validator : Validator.t)
    (exec_paths : list string) (valid_paths : list PyVal) : M (list PyVal) :=
  match exec_paths with
  | [] => ret valid_paths
  | executable_path :: rest =>
      do emit (CallValidate binary executable_path) then
      match Validator.validate validator executable_path with
      | Return valid_path =>
          if truthy valid_path then
            do assign_binary_path binary valid_path then
            ret (valid_paths ++ [valid_path])
          else for_executable_path binary validator rest valid_paths
      | Raise ex =>
          match exn_class ex with
          | MisMatchRuntimeError => for_executable_path binary validator rest valid_paths
          | _ => raise (Uncaught ex)
          end
      end
  end.

(** Line 42: the candidates of one requirement. The conditional expression
    evaluates one branch only. *)
Definition candidates (binary_path : BinaryPath.t) : M (list string) :=
  if negb (BinaryPath.path_provided binary_path) then
    do emit (ReadExecPaths (BinaryPath.resolver binary_path)) then
    ret (Resolver.exec_paths (BinaryPath.resolver binary_path))
  else lift (iterate (BinaryPath.binary_path binary_path)).

(** The body of the outer loop, lines 41-53, for one item of
    [binaries_copy.items()]. *)
Definition binary_body (binary : string) (binary_path : BinaryPath.t) (valid_paths : list PyVal)
    : M (list PyVal) :=
  let validator := BinaryPath.validator binary_path in
  let* exec_paths := candidates binary_path in
  for_executable_path binary validator exec_paths valid_paths.

(** The outer loop, lines 40-53, over [binaries_copy.items()]. *)
Fixpoint for_binary (items : list (string * BinaryPath.t)) (valid_paths : list PyVal)
    : M (list PyVal) :=
  match items with
  | [] => ret valid_paths
  | (binary, binary_path) :: rest =>
      let* valid_paths' := binary_body binary binary_path valid_paths in
      for_binary rest valid_paths'
  end.

(** Lines 37-58: everything [wrapper] does before it calls [func].
    [binaries_copy] is the dictionary held in [self._binaries], not a copy:
    the loop has mutated it in place, and line 54 stores it back. *)
Definition gate : M unit :=
  let* binaries_copy := binaries in
  let* valid_paths := for_binary binaries_copy [] in
  let* w := get_self in
  do binaries_setter (Workflow._binaries w) then
  let* b := binaries in
  if negb (length b =? length valid_paths)%nat then
    raise (WorkflowFailedError (Workflow.NAME w) None "Binary validation failed!")
  else ret tt.

(** [sanitize(func)]: the gate, then [func]. *)
Definition sanitize (func : M unit) : M unit :=
  do gate then func.

(** ** [BaseWorkflow.run] *)

(** The loop of lines 230-251. *)
Fixpoint for_action (NAME : PyVal) (actions : list Action.t) : M unit :=
  match actions with
  | [] => ret tt
  | action :: rest =>
      do emit (CallExecute action) then
      match Action.execute action with
      | Return _ => for_action NAME rest
      | Raise ex =>
          match exn_class ex with
          | ActionFailedError =>
              raise (WorkflowFailedError NAME (Some (Action.NAME action)) (exn_str ex))
          | _ =>
              raise (WorkflowUnknownError NAME (Some (Action.NAME action)) (exn_str ex))
          end
      end
  end.

(** The undecorated body of [run]. *)
Definition run_body : M unit :=
  let* w := get_self in
  if bool_decide (Workflow.actions w = []) then
    raise (WorkflowFailedError (Workflow.NAME w) None
             "Workflow does not have any actions registered")
  else for_action (Workflow.NAME w) (Workflow.actions w).

(** [@sanitize def run(self)] *)
Definition run : M unit := sanitize run_body.

(** [BaseWorkflow.__init__]: no actions, an empty [_binaries]. *)
Definition init (NAME : PyVal) (resolvers : list Resolver.t) (validators : list Validator.t)
    : Workflow.t :=
  Workflow.mk NAME [] [] resolvers validators.

(** ** Registration: [_WorkflowMetaClass.__new__] *)

Module Class.
(** The attributes of a class the metaclass reads, after inheritance. *)
Record t := mk {
  __name__ : string;
  __TESTING__ : bool;
  NAME : PyObj;
  CAPABILITY : PyObj
}.
End Class.

(** Modelled from the spec: the registry class behind [DEFAULT_REGISTRY] is
    not in this module; [register(key, workflowType)] inserts or overwrites
    the mapping for [key], [lookup(key)] returns the type or not found. *)
Abbreviation Registry := (gmap Capability Class.t).

(** Modelled from the spec: item assignment on the registry, which is not in
    this module; [register(key, workflowType)] inserts or overwrites the
    mapping for [key]. *)
Definition register (key : Capability) (cls : Class.t) (reg : Registry) : Registry :=
  <[key := cls]> reg.

(** Modelled from the spec: lookup in the registry, which is not in this
    module; [lookup(key)] returns the workflow type or not found. *)
Definition lookup_workflow (key : Capability) (reg : Registry) : option Class.t :=
  reg !! key.

Definition ValueError (msg : string) : PyExn := mkExn (OtherException "ValueError") msg.

(** The two [isinstance] tests are the two pattern matches: a name passes
    when it is a string, a capability when it is a [Capability]. *)
Definition metaclass_new (cls : Class.t) (DEFAULT_REGISTRY : Registry)
    : Outcome PyExn Class.t * Registry :=
  if String.eqb (Class.__name__ cls) "BaseWorkflow" || Class.__TESTING__ cls then
    (Return cls, DEFAULT_REGISTRY)
  else
    match Class.NAME cls with
    | Plain (PyStr name) =>
        match Class.CAPABILITY cls with
        | CapabilityObj capability =>
            (Return cls, register capability cls DEFAULT_REGISTRY)
        | Plain _ =>
            (Raise (ValueError ("Workflow '" +:+ name +:+ "' must register valid capabilities")),
             DEFAULT_REGISTRY)
        end
    | _ => (Raise (ValueError "Workflow must provide a valid name"), DEFAULT_REGISTRY)
    end.

(** ** Reading the call log *)

(** The actions whose [execute] was called, in order. *)
Definition executed (log : list Event) : list Action.t :=
  omap (fun e => match e with CallExecute a => Some a | _ => None end) log.

(** The candidates handed to a validator, with the binary they were tried
    for, in order. *)
Definition validated (log : list Event) : list (string * string) :=
  omap (fun e => match e with CallValidate b p => Some (b, p) | _ => None end) log.

(** The resolvers whose candidate list was read, in order. *)
Definition resolved (log : list Event) : list Resolver.t :=
  omap (fun e => match e with ReadExecPaths r => Some r | _ => None end) log.

(** How many times the two extension points were called. *)
#[global] Instance ExnClass_eq_dec : EqDecision ExnClass.
Proof. solve_decision. Defined.

Definition computations (log : list Event) : nat :=
  length (omap (fun e => match e with CallGetResolvers => Some tt | _ => None end) log).


(** ** Registration: vocabulary and sample classes *)

(** A class the metaclass considers for registration: not the base class,
    not marked for testing. *)
Definition candidate (cls : Class.t) : Prop :=
  Class.__name__ cls ≠ "BaseWorkflow" ∧ Class.__TESTING__ cls = false.

(** The claim C7 as the specification words it, at one class and one
    registry: unless the name is a non-empty string and the capability a
    [Capability], a fault is raised and the registry is left alone. *)
Definition has_nonempty_name (cls : Class.t) : Prop :=
  ∃ name, Class.NAME cls = Plain (PyStr name) ∧ name ≠ EmptyString.

Definition has_capability (cls : Class.t) : Prop :=
  ∃ key, Class.CAPABILITY cls = CapabilityObj key.

Definition fails_fast_unless_named (cls : Class.t) (reg : Registry) : Prop :=
  candidate cls ->
  ¬ (has_nonempty_name cls ∧ has_capability cls) ->
  ∃ ex, metaclass_new cls reg = (Raise ex, reg).

(** What the two [isinstance] tests accept. *)
Definition has_string_name (cls : Class.t) : Prop :=
  ∃ name, Class.NAME cls = Plain (PyStr name).

Definition python_pip : Capability := mkCapability "python" "pip" None.

(** A workflow class whose name is the empty string. *)
Definition unnamed_workflow : Class.t :=
  Class.mk "UnnamedWorkflow" false (Plain (PyStr EmptyString)) (CapabilityObj python_pip).

Definition pip_workflow : Class.t :=
  Class.mk "PythonPipWorkflow" false (Plain (PyStr "PythonPipBuilder")) (CapabilityObj python_pip).

Definition other_pip_workflow : Class.t :=
  Class.mk "OtherPipWorkflow" false (Plain (PyStr "OtherPipBuilder")) (CapabilityObj python_pip).

(** ** The gate: vocabulary *)

(** The candidates of one requirement, line 42, without the log. *)
Definition candidate_list (binary_path : BinaryPath.t) : Outcome PyExn (list string) :=
  if negb (BinaryPath.path_provided binary_path)
  then Return (Resolver.exec_paths (BinaryPath.resolver binary_path))
  else iterate (BinaryPath.binary_path binary_path).

(** The validator accepts candidate [p] with the path [r]: it returns [r]
    and [r] passes the test [if valid_path:]. *)
Definition accepts (v : Validator.t) (p : string) (r : PyVal) : Prop :=
  Validator.validate v p = Return r ∧ truthy r = true.

(** The validator rejects candidate [p] with a runtime mismatch. *)
Definition rejects (v : Validator.t) (p : string) : Prop :=
  ∃ ex, Validator.validate v p = Raise ex ∧ exn_class ex = MisMatchRuntimeError.

(** The gate moves on to the next candidate: a runtime mismatch, or a
    returned value that is false. *)
Definition skips (v : Validator.t) (p : string) : Prop :=
  match Validator.validate v p with
  | Return r => truthy r = false
  | Raise ex => exn_class ex = MisMatchRuntimeError
  end.

(** The validator raises something other than a runtime mismatch. *)
Definition crashes (v : Validator.t) (p : string) (ex : PyExn) : Prop :=
  Validator.validate v p = Raise ex ∧ exn_class ex ≠ MisMatchRuntimeError.

(** [self] after [binary_path.binary_path = valid_path] for the object
    stored under [binary]. *)
Definition assigned (binary : string) (valid_path : PyVal) (w : Workflow.t) : Workflow.t :=
  Workflow.set_binaries
    (dict_update binary (BinaryPath.set_binary_path valid_path) (Workflow._binaries w)) w.

(** The log entries of validating the candidates [l] of [binary], in
    order. *)
Definition validations (binary : string) (l : list string) : list Event :=
  CallValidate binary <$> l.

(** The log entry of reading the candidates of a requirement: the
    resolver is asked only without an override. *)
Definition reads (binary_path : BinaryPath.t) : list Event :=
  if BinaryPath.path_provided binary_path then []
  else [ReadExecPaths (BinaryPath.resolver binary_path)].

(** The mapping the [binaries] getter returns for an instance. *)
Definition requirements (w : Workflow.t) : Dict :=
  if bool_decide (Workflow._binaries w = [])
  then binaries_of (Workflow.get_resolvers w) (Workflow.get_validators w)
  else Workflow._binaries w.

(** No candidate of the requirement validates. *)
Definition unsatisfiable (binary_path : BinaryPath.t) : Prop :=
  ∀ l p r, candidate_list binary_path = Return l -> p ∈ l ->
           ¬ accepts (BinaryPath.validator binary_path) p r.

(** The candidates of the requirement can be enumerated, and its validator
    raises nothing but runtime mismatches on them. *)
Definition crash_free (binary_path : BinaryPath.t) : Prop :=
  ∃ l, candidate_list binary_path = Return l
       ∧ ∀ p ex, p ∈ l -> ¬ crashes (BinaryPath.validator binary_path) p ex.

(** The attributes of an instance the gate never writes. *)
Definition same_config (w w' : Workflow.t) : Prop :=
  Workflow.NAME w' = Workflow.NAME w
  ∧ Workflow.actions w' = Workflow.actions w
  ∧ Workflow.get_resolvers w' = Workflow.get_resolvers w
  ∧ Workflow.get_validators w' = Workflow.get_validators w.

(** What a step of the gate's loop may change: the objects stored in
    [_binaries], not its keys, and the log, without executing an action. *)
Definition loop_step (st st' : State) : Prop :=
  same_config (self st) (self st')
  ∧ (Workflow._binaries (self st')).*1 = (Workflow._binaries (self st)).*1
  ∧ executed (calls st') = executed (calls st).

(** The two faults [run] raises without an action attributed. *)
Definition binary_validation_failed (w : Workflow.t) : Exn :=
  WorkflowFailedError (Workflow.NAME w) None "Binary validation failed!".

Definition no_actions_registered (w : Workflow.t) : Exn :=
  WorkflowFailedError (Workflow.NAME w) None "Workflow does not have any actions registered".

(** The fault [run] raises when [action] raised [ex]. *)
Definition action_fault (w : Workflow.t) (action : Action.t) (ex : PyExn) : Exn :=
  match exn_class ex with
  | ActionFailedError =>
      WorkflowFailedError (Workflow.NAME w) (Some (Action.NAME action)) (exn_str ex)
  | _ => WorkflowUnknownError (Workflow.NAME w) (Some (Action.NAME action)) (exn_str ex)
  end.

(** The log entries of executing the actions [l], in order. *)
Definition executions (l : list Action.t) : list Event := CallExecute <$> l.

Definition completes (action : Action.t) : Prop := Action.execute action = Return tt.

(** ** The claims C1 and C9 as the specification words them *)

(** C1 at one state: if some requirement is unsatisfiable, [run] raises the
    binary-validation-failed fault and executes no action. *)
Definition unsatisfied_requirement_is_reported (st : State) : Prop :=
  (∃ binary bp, (binary, bp) ∈ requirements (self st) ∧ unsatisfiable bp) ->
  (run st).1 = Raise (binary_validation_failed (self st))
  ∧ executed (calls (run st).2) = executed (calls st).

(** One more access of the [binaries] property. *)
Definition access (st : State) : State := (binaries st).2.

(** C9 at one state: however often the property is accessed, the mapping is
    computed once. *)
Definition computed_exactly_once (st : State) : Prop :=
  ∀ n, computations (calls (Nat.iter (S n) access st)) = S (computations (calls st)).

(** ** Sample collaborators and workflows *)

Definition mismatch : PyExn :=
  mkExn MisMatchRuntimeError "executable does not match the runtime".

Definition os_error : PyExn :=
  mkExn (OtherException "OSError") "Permission denied".

(** Accepts [/usr/bin/tool] only. *)
Definition tool_validator : Validator.t :=
  Validator.mk (fun p =>
    if String.eqb p "/usr/bin/tool" then Return (PyStr "/usr/bin/tool") else Raise mismatch).

(** Rejects every candidate with a runtime mismatch. *)
Definition strict_validator : Validator.t := Validator.mk (fun _ => Raise mismatch).

(** Cannot run the candidate at all. *)
Definition broken_validator : Validator.t := Validator.mk (fun _ => Raise os_error).

Definition tool_resolver : Resolver.t :=
  Resolver.mk "tool" ["/opt/bin/tool"; "/usr/bin/tool"].

Definition helper_resolver : Resolver.t :=
  Resolver.mk "helper" ["/usr/bin/helper"].

Definition copy_source : Action.t := Action.mk "CopySource" (Return tt).

Definition resolve_dependencies : Action.t :=
  Action.mk "ResolveDependencies" (Raise (mkExn ActionFailedError "pip install failed")).

Definition compile_source : Action.t := Action.mk "CompileSource" (Return tt).

Definition buggy_action : Action.t :=
  Action.mk "Buggy" (Raise (mkExn (OtherException "KeyError") "'runtime'")).

(** One satisfiable requirement, three actions, the second fails. *)
Definition sample_workflow : Workflow.t :=
  Workflow.mk (PyStr "SampleWorkflow") [copy_source; resolve_dependencies; compile_source]
    [] [tool_resolver] [tool_validator].

(** One satisfiable requirement, the first action crashes. *)
Definition buggy_workflow : Workflow.t :=
  Workflow.mk (PyStr "BuggyWorkflow") [buggy_action; copy_source]
    [] [tool_resolver] [tool_validator].

(** One satisfiable requirement, no actions. *)
Definition idle_workflow : Workflow.t :=
  init (PyStr "IdleWorkflow") [tool_resolver] [tool_validator].

(** One requirement that no candidate satisfies. *)
Definition unsatisfied_workflow : Workflow.t :=
  Workflow.mk (PyStr "UnsatisfiedWorkflow") [copy_source] [] [tool_resolver] [strict_validator].

(** Two requirements: no candidate satisfies the first, the validator of the
    second cannot run its candidate. *)
Definition broken_workflow : Workflow.t :=
  Workflow.mk (PyStr "BrokenWorkflow") [copy_source]
    [] [tool_resolver; helper_resolver] [strict_validator; broken_validator].

(** No requirement at all. *)
Definition bare_workflow : Workflow.t :=
  Workflow.mk (PyStr "BareWorkflow") [copy_source] [] [] [].

(** A requirement with an override list. *)
Definition overridden : BinaryPath.t :=
  BinaryPath.mk tool_resolver tool_validator "tool" (PyList ["/usr/bin/tool"]) true.


(** One step of the dictionary comprehension of [binaries]. *)
Definition pair_up (d : Dict) (rv : Resolver.t * Validator.t) : Dict :=
  dict_set (Resolver.binary rv.1) (BinaryPath.new rv.1 rv.2 (Resolver.binary rv.1)) d.

(** ** Manifest applicability: [is_supported] *)

(** The path separator of [posixpath], the character of ["/"]. *)
Definition sep : Ascii.ascii := Ascii.Ascii true true true true false true false false.

(** [s.rfind(c)]: the index of the last occurrence of [c] in [s], or -1. *)
Fixpoint rfind (c : Ascii.ascii) (s : string) : Z :=
  match s with
  | EmptyString => (-1)%Z
  | String a rest =>
      let r := rfind c rest in
      if (0 <=? r)%Z then (r + 1)%Z
      else if Ascii.eqb a c then 0%Z else (-1)%Z
  end.

(** [s[i:]] for a non-negative [i]. *)
Fixpoint slice_from (i : nat) (s : string) : string :=
  match i, s with
  | O, _ => s
  | S i', EmptyString => EmptyString
  | S i', String _ rest => slice_from i' rest
  end.

(** [os.path.basename] of the POSIX flavour of the standard library:
    [i = p.rfind('/') + 1; return p[i:]]. *)
Definition basename (p : string) : string :=
  let i := (rfind sep p + 1)%Z in
  slice_from (Z.to_nat i) p.

(** [BaseWorkflow.is_supported], lines 175-184, as a function of the class
    attribute [SUPPORTED_MANIFESTS] and of [self.manifest_path]. *)
Definition is_supported (SUPPORTED_MANIFESTS : list string) (manifest_path : string) : bool :=
  if negb (bool_decide (SUPPORTED_MANIFESTS = [])) then
    bool_decide (basename manifest_path ∈ SUPPORTED_MANIFESTS)
  else true.

(** The character [c] occurs in [s]. *)
Fixpoint occurs (c : Ascii.ascii) (s : string) : bool :=
  match s with
  | EmptyString => false
  | String a rest => Ascii.eqb a c || occurs c rest
  end.

(** ** Further vocabulary *)

(** A class the metaclass returns without looking at it: the base class or
    a class marked for testing. *)
Definition skipped (cls : Class.t) : Prop :=
  Class.__name__ cls = "BaseWorkflow" ∨ Class.__TESTING__ cls = true.

(** A class marked for testing that declares neither name nor capability. *)
Definition testing_workflow : Class.t :=
  Class.mk "MyTestWorkflow" true (Plain PyNone) (Plain PyNone).

Definition java_gradle : Capability := mkCapability "java" "gradle" None.

Definition gradle_workflow : Class.t :=
  Class.mk "JavaGradleWorkflow" false (Plain (PyStr "JavaGradleWorkflow")) (CapabilityObj java_gradle).

(** The requirement has a candidate the validator accepts, and skips every
    candidate before it. *)
Definition satisfied (bp : BinaryPath.t) : Prop :=
  ∃ pre p post r,
    candidate_list bp = Return (pre ++ p :: post)
    ∧ Forall (skips (BinaryPath.validator bp)) pre
    ∧ accepts (BinaryPath.validator bp) p r.

(** The requirement [item] as the dictionary [d] holds it once the loop of
    the gate has dealt with it: with the path returned for its first
    candidate that was not skipped, or untouched when all were skipped. *)
Definition settled (d : Dict) (item : string * BinaryPath.t) : Prop :=
  (∃ pre p post r,
      candidate_list item.2 = Return (pre ++ p :: post)
      ∧ Forall (skips (BinaryPath.validator item.2)) pre
      ∧ accepts (BinaryPath.validator item.2) p r
      ∧ dict_get item.1 d = Some (BinaryPath.set_binary_path r item.2))
  ∨ (∃ l, candidate_list item.2 = Return l
          ∧ Forall (skips (BinaryPath.validator item.2)) l
          ∧ dict_get item.1 d = Some item.2).

(** Two items of a dictionary with the same key that differ at most in
    [binary_path]. *)
Definition same_requirement (x y : string * BinaryPath.t) : Prop :=
  x.1 = y.1
  ∧ BinaryPath.resolver x.2 = BinaryPath.resolver y.2
  ∧ BinaryPath.validator x.2 = BinaryPath.validator y.2
  ∧ BinaryPath.binary x.2 = BinaryPath.binary y.2
  ∧ BinaryPath.path_provided x.2 = BinaryPath.path_provided y.2.

(** Two requirements: the first is satisfiable, no candidate satisfies the
    second. *)
Definition half_satisfied_workflow : Workflow.t :=
  Workflow.mk (PyStr "HalfSatisfiedWorkflow") [copy_source]
    [] [tool_resolver; helper_resolver] [tool_validator; strict_validator].

(** Resolvers without validators. *)
Definition unvalidated_workflow : Workflow.t :=
  Workflow.mk (PyStr "UnvalidatedWorkflow") [copy_source] [] [tool_resolver; helper_resolver] [].

(** Every action completes. *)
Definition smooth_workflow : Workflow.t :=
  Workflow.mk (PyStr "SmoothWorkflow") [copy_source; compile_source]
    [] [tool_resolver] [tool_validator].

(** A requirement whose override is one string, not a list. *)
Definition string_override : BinaryPath.t :=
  BinaryPath.mk tool_resolver tool_validator "tool" (PyStr "/usr/bin/tool") true.

(** The characters of a string, as the one-character strings Python's
    iteration of a [str] yields. *)
Definition characters (s : string) : list string :=
  (fun c => String c EmptyString) <$> String.list_ascii_of_string s.



(** One requirement, overridden by one string. *)
Definition string_override_workflow : Workflow.t :=
  Workflow.mk (PyStr "StringOverrideWorkflow") [copy_source] [("tool", string_override)]
    [tool_resolver] [tool_validator].

(** * Properties *)

(** ** The monad *)

Lemma bind_return {A B} (m : M A) (k : A -> M B) st a st' :
  m st = (Return a, st') -> bind m k st = k a st'.
Proof. intros H. unfold bind. rewrite H. reflexivity. Qed.

Lemma bind_raise {A B} (m : M A) (k : A -> M B) st e st' :
  m st = (Raise e, st') -> bind m k st = (Raise e, st').
Proof. intros H. unfold bind. rewrite H. reflexivity. Qed.

Lemma state_eta st : mkState (self st) (calls st) = st.
Proof. destruct st; reflexivity. Qed.

Lemma emit_spec e st :
  emit e st = (Return tt, mkState (self st) (calls st ++ [e])).
Proof. reflexivity. Qed.

(** ** Registration *)

Section Registration.
Implicit Types (cls : Class.t) (reg : Registry) (key : Capability).
Lemma candidate_guard cls :
  candidate cls ->
  String.eqb (Class.__name__ cls) "BaseWorkflow" || Class.__TESTING__ cls = false.
Proof.
  intros [Hname Htest]. rewrite Htest, orb_false_r.
  apply String.eqb_neq. exact Hname.
Qed.

Lemma skipped_classes cls reg :
  ¬ candidate cls -> metaclass_new cls reg = (Return cls, reg).
Proof.
  intros Hn. unfold metaclass_new.
  destruct (String.eqb_spec (Class.__name__ cls) "BaseWorkflow") as [|Hne]; [reflexivity|].
  destruct (Class.__TESTING__ cls) eqn:Ht; [reflexivity|].
  exfalso. apply Hn. split; assumption.
Qed.

Lemma registered cls reg name key :
  candidate cls ->
  Class.NAME cls = Plain (PyStr name) ->
  Class.CAPABILITY cls = CapabilityObj key ->
  metaclass_new cls reg = (Return cls, register key cls reg).
Proof.
  intros Hc Hn Hk. unfold metaclass_new.
  rewrite (candidate_guard _ Hc), Hn, Hk. reflexivity.
Qed.

End Registration.

Lemma candidate_unnamed_workflow : candidate unnamed_workflow.
Proof. split; [discriminate | reflexivity]. Qed.

Lemma candidate_pip_workflow : candidate pip_workflow.
Proof. split; [discriminate | reflexivity]. Qed.

(** C7, counterexample: a class named by the empty string is registered
    without any fault, although it has no non-empty name. *)
Lemma empty_name_is_registered : ¬ fails_fast_unless_named unnamed_workflow ∅.
Proof.
  intros H. destruct H as [ex Hex].
  - exact candidate_unnamed_workflow.
  - intros [[name [Hname Hne]] _]. simpl in Hname.
    injection Hname as <-. apply Hne. reflexivity.
  - rewrite (registered unnamed_workflow ∅ EmptyString python_pip) in Hex.
    + discriminate Hex.
    + exact candidate_unnamed_workflow.
    + reflexivity.
    + reflexivity.
Qed.

(** C7, as amended: for a class that is neither the base class nor marked for
    testing, registration succeeds exactly when [NAME] is a string (the empty
    string included) and [CAPABILITY] is a [Capability] instance, and then the
    class is stored under its capability; otherwise a [ValueError] is raised
    and the registry is unchanged. *)
Theorem registration_validates_metadata (cls : Class.t) (reg : Registry) :
  candidate cls ->
  (∀ name key,
      Class.NAME cls = Plain (PyStr name) ->
      Class.CAPABILITY cls = CapabilityObj key ->
      metaclass_new cls reg = (Return cls, register key cls reg))
  ∧ (¬ has_string_name cls ->
      metaclass_new cls reg = (Raise (ValueError "Workflow must provide a valid name"), reg))
  ∧ (∀ name,
      Class.NAME cls = Plain (PyStr name) ->
      ¬ has_capability cls ->
      metaclass_new cls reg =
        (Raise (ValueError ("Workflow '" +:+ name +:+ "' must register valid capabilities")), reg)).
Proof.
  intros Hc. split; [|split].
  - intros name key. apply registered. exact Hc.
  - intros Hn. unfold metaclass_new. rewrite (candidate_guard _ Hc).
    destruct (Class.NAME cls) as [[| name |]|] eqn:E; try reflexivity.
    exfalso. apply Hn. exists name. exact E.
  - intros name Hname Hk. unfold metaclass_new.
    rewrite (candidate_guard _ Hc), Hname.
    destruct (Class.CAPABILITY cls) as [|key] eqn:E; [reflexivity|].
    exfalso. apply Hk. exists key. exact E.
Qed.

Lemma registration_validates_metadata_witness :
  metaclass_new pip_workflow ∅ = (Return pip_workflow, register python_pip pip_workflow ∅).
Proof.
  apply (proj1 (registration_validates_metadata pip_workflow ∅ candidate_pip_workflow)
           "PythonPipBuilder" python_pip);
    reflexivity.
Defined.

(** C8: when two classes are registered one after the other under the same
    capability, neither registration raises, and a lookup of that capability
    afterwards yields the second class, whatever the registry held before;
    the other keys are as the first registration left them. *)
Theorem last_registration_wins (first second : Class.t) (key : Capability)
    (name1 name2 : string) (reg : Registry) :
  candidate first -> candidate second ->
  Class.NAME first = Plain (PyStr name1) -> Class.NAME second = Plain (PyStr name2) ->
  Class.CAPABILITY first = CapabilityObj key -> Class.CAPABILITY second = CapabilityObj key ->
  let after_first := metaclass_new first reg in
  let after_second := metaclass_new second after_first.2 in
  after_first.1 = Return first
  ∧ lookup_workflow key after_first.2 = Some first
  ∧ after_second.1 = Return second
  ∧ lookup_workflow key after_second.2 = Some second
  ∧ (∀ other, other ≠ key ->
       lookup_workflow other after_second.2 = lookup_workflow other after_first.2).
Proof.
  intros Hc1 Hc2 Hn1 Hn2 Hk1 Hk2. simpl.
  rewrite (registered first reg name1 key Hc1 Hn1 Hk1). simpl.
  rewrite (registered second _ name2 key Hc2 Hn2 Hk2). simpl.
  unfold lookup_workflow, register.
  repeat split.
  - apply lookup_insert_eq.
  - apply lookup_insert_eq.
  - intros other Hne. apply lookup_insert_ne. congruence.
Qed.

Lemma candidate_other_pip_workflow : candidate other_pip_workflow.
Proof. split; [discriminate | reflexivity]. Qed.

Lemma last_registration_wins_witness :
  lookup_workflow python_pip
    (metaclass_new other_pip_workflow (metaclass_new pip_workflow ∅).2).2
  = Some other_pip_workflow.
Proof.
  exact (proj1 (proj2 (proj2 (proj2
    (last_registration_wins pip_workflow other_pip_workflow python_pip
       "PythonPipBuilder" "OtherPipBuilder" ∅
       candidate_pip_workflow candidate_other_pip_workflow
       eq_refl eq_refl eq_refl eq_refl))))).
Defined.

(** ** The inner loop of the gate *)

Section InnerLoop.
Variables (binary : string) (validator : Validator.t).

Lemma for_executable_path_cons p rest valid_paths st :
  for_executable_path binary validator (p :: rest) valid_paths st =
  let st1 := mkState (self st) (calls st ++ [CallValidate binary p]) in
  match Validator.validate validator p with
  | Return r =>
      if truthy r
      then (Return (valid_paths ++ [r]), mkState (assigned binary r (self st)) (calls st1))
      else for_executable_path binary validator rest valid_paths st1
  | Raise ex =>
      match exn_class ex with
      | MisMatchRuntimeError => for_executable_path binary validator rest valid_paths st1
      | _ => (Raise (Uncaught ex), st1)
      end
  end.
Proof.
  simpl. unfold bind at 1. rewrite emit_spec.
  destruct (Validator.validate validator p) as [r|ex].
  - destruct (truthy r); reflexivity.
  - destruct (exn_class ex); reflexivity.
Qed.

Lemma skips_step p rest valid_paths st :
  skips validator p ->
  for_executable_path binary validator (p :: rest) valid_paths st =
  for_executable_path binary validator rest valid_paths
    (mkState (self st) (calls st ++ [CallValidate binary p])).
Proof.
  unfold skips. intros H. rewrite for_executable_path_cons. simpl.
  destruct (Validator.validate validator p) as [r|ex].
  - rewrite H. reflexivity.
  - rewrite H. reflexivity.
Qed.

Lemma rejects_skips p : rejects validator p -> skips validator p.
Proof. intros [ex [Hv Hc]]. unfold skips. rewrite Hv. exact Hc. Qed.

(** Every candidate is skipped: all of them are tried, nothing changes
    but the log. *)
Lemma loop_exhausted l valid_paths st :
  Forall (skips validator) l ->
  for_executable_path binary validator l valid_paths st =
  (Return valid_paths, mkState (self st) (calls st ++ validations binary l)).
Proof.
  intros H. revert st. induction H as [|p l Hp _ IH]; intros st.
  - simpl. unfold ret, validations. simpl. rewrite app_nil_r, state_eta. reflexivity.
  - rewrite (skips_step _ _ _ _ Hp), IH. simpl.
    unfold validations. rewrite <- app_assoc. reflexivity.
Qed.

(** The first accepted candidate ends the loop. *)
Lemma loop_accepts pre p post r valid_paths st :
  Forall (skips validator) pre ->
  accepts validator p r ->
  for_executable_path binary validator (pre ++ p :: post) valid_paths st =
  (Return (valid_paths ++ [r]),
   mkState (assigned binary r (self st)) (calls st ++ validations binary (pre ++ [p]))).
Proof.
  intros Hpre [Hv Ht]. revert st. induction Hpre as [|q pre Hq _ IH]; intros st.
  - simpl app. rewrite for_executable_path_cons, Hv, Ht. reflexivity.
  - simpl app. rewrite (skips_step _ _ _ _ Hq), IH. simpl.
    unfold validations. simpl. rewrite <- app_assoc. reflexivity.
Qed.

(** A fault other than a runtime mismatch ends the loop and leaves it. *)
Lemma loop_crashes pre p post ex valid_paths st :
  Forall (skips validator) pre ->
  crashes validator p ex ->
  for_executable_path binary validator (pre ++ p :: post) valid_paths st =
  (Raise (Uncaught ex), mkState (self st) (calls st ++ validations binary (pre ++ [p]))).
Proof.
  intros Hpre [Hv Hc]. revert st. induction Hpre as [|q pre Hq _ IH]; intros st.
  - simpl app. rewrite for_executable_path_cons, Hv.
    destruct (exn_class ex); try reflexivity. contradiction.
  - simpl app. rewrite (skips_step _ _ _ _ Hq), IH. simpl.
    unfold validations. simpl. rewrite <- app_assoc. reflexivity.
Qed.

(** A candidate list is exhausted, or has a first candidate that is
    accepted, or a first candidate on which the validator crashes. *)
Lemma candidates_trichotomy l :
  Forall (skips validator) l
  ∨ (∃ pre p post r, l = pre ++ p :: post ∧ Forall (skips validator) pre ∧ accepts validator p r)
  ∨ (∃ pre p post ex, l = pre ++ p :: post ∧ Forall (skips validator) pre ∧ crashes validator p ex).
Proof.
  induction l as [|q l IH].
  - left. constructor.
  - destruct (Validator.validate validator q) as [r|ex] eqn:Hv.
    + destruct (truthy r) eqn:Ht.
      * right. left. exists [], q, l, r. repeat split; try assumption. constructor.
      * assert (Hq : skips validator q) by (unfold skips; rewrite Hv; exact Ht).
        destruct IH as [H|[H|H]].
        -- left. constructor; assumption.
        -- right. left. destruct H as (pre & p & post & r' & -> & Hpre & Hacc).
           exists (q :: pre), p, post, r'. repeat split; try apply Hacc.
           constructor; assumption.
        -- right. right. destruct H as (pre & p & post & ex & -> & Hpre & Hcr).
           exists (q :: pre), p, post, ex. repeat split; try apply Hcr.
           constructor; assumption.
    + destruct (decide (exn_class ex = MisMatchRuntimeError)) as [Hc|Hc].
      * assert (Hq : skips validator q) by (unfold skips; rewrite Hv; exact Hc).
        destruct IH as [H|[H|H]].
        -- left. constructor; assumption.
        -- right. left. destruct H as (pre & p & post & r' & -> & Hpre & Hacc).
           exists (q :: pre), p, post, r'. repeat split; try apply Hacc.
           constructor; assumption.
        -- right. right. destruct H as (pre & p & post & ex' & -> & Hpre & Hcr).
           exists (q :: pre), p, post, ex'. repeat split; try apply Hcr.
           constructor; assumption.
      * right. right. exists [], q, l, ex. repeat split; try assumption. constructor.
Qed.
End InnerLoop.

(** ** Reading the log *)

Lemma executed_app l1 l2 : executed (l1 ++ l2) = executed l1 ++ executed l2.
Proof. apply omap_app. Qed.

Lemma validated_app l1 l2 : validated (l1 ++ l2) = validated l1 ++ validated l2.
Proof. apply omap_app. Qed.

Lemma resolved_app l1 l2 : resolved (l1 ++ l2) = resolved l1 ++ resolved l2.
Proof. apply omap_app. Qed.

Lemma executed_validations b l : executed (validations b l) = [].
Proof. induction l; [reflexivity | assumption]. Qed.


Lemma validated_validations b l : validated (validations b l) = pair b <$> l.
Proof. induction l; [reflexivity | simpl; f_equal; assumption]. Qed.

Lemma executed_reads bp : executed (reads bp) = [].
Proof. unfold reads. destruct (BinaryPath.path_provided bp); reflexivity. Qed.

Lemma executed_executions l : executed (executions l) = l.
Proof. induction l; [reflexivity | simpl; f_equal; assumption]. Qed.

Lemma resolved_executions l : resolved (executions l) = [].
Proof. induction l; [reflexivity | assumption]. Qed.

Lemma validated_executions l : validated (executions l) = [].
Proof. induction l; [reflexivity | assumption]. Qed.

(** ** The outer loop of the gate *)

Lemma candidates_spec bp st :
  candidates bp st =
  match candidate_list bp with
  | Return l => (Return l, mkState (self st) (calls st ++ reads bp))
  | Raise ex => (Raise (Uncaught ex), st)
  end.
Proof.
  unfold candidates, candidate_list, reads.
  destruct (BinaryPath.path_provided bp); simpl.
  - destruct (iterate (BinaryPath.binary_path bp)); simpl; unfold ret, raise.
    + rewrite app_nil_r, state_eta. reflexivity.
    + reflexivity.
  - reflexivity.
Qed.

Lemma candidate_list_raise bp ex :
  candidate_list bp = Raise ex -> BinaryPath.path_provided bp = true.
Proof.
  unfold candidate_list. destruct (BinaryPath.path_provided bp); [reflexivity | discriminate].
Qed.

(** What one iteration of the outer loop does, in full. *)
Lemma binary_body_cases b bp valid_paths st :
  let v := BinaryPath.validator bp in
  (∃ ex, candidate_list bp = Raise ex
         ∧ binary_body b bp valid_paths st = (Raise (Uncaught ex), st))
  ∨ (∃ l, candidate_list bp = Return l ∧ Forall (skips v) l
          ∧ binary_body b bp valid_paths st =
            (Return valid_paths,
             mkState (self st) (calls st ++ reads bp ++ validations b l)))
  ∨ (∃ pre p post r, candidate_list bp = Return (pre ++ p :: post)
          ∧ Forall (skips v) pre ∧ accepts v p r
          ∧ binary_body b bp valid_paths st =
            (Return (valid_paths ++ [r]),
             mkState (assigned b r (self st))
                     (calls st ++ reads bp ++ validations b (pre ++ [p]))))
  ∨ (∃ pre p post ex, candidate_list bp = Return (pre ++ p :: post)
          ∧ Forall (skips v) pre ∧ crashes v p ex
          ∧ binary_body b bp valid_paths st =
            (Raise (Uncaught ex),
             mkState (self st) (calls st ++ reads bp ++ validations b (pre ++ [p])))).
Proof.
  intros v. unfold binary_body. fold v.
  unfold bind at 1 2 3 4. rewrite candidates_spec.
  destruct (candidate_list bp) as [l|ex] eqn:Hl.
  - right.
    destruct (candidates_trichotomy v l) as [H|[H|H]].
    + left. exists l. repeat split; [assumption|].
      rewrite (loop_exhausted _ _ _ _ _ H). simpl. rewrite app_assoc. reflexivity.
    + right. left. destruct H as (pre & p & post & r & -> & Hpre & Hacc).
      exists pre, p, post, r. repeat split; try assumption; try apply Hacc.
      rewrite (loop_accepts _ _ _ _ _ _ _ _ Hpre Hacc). simpl. rewrite app_assoc. reflexivity.
    + right. right. destruct H as (pre & p & post & ex & -> & Hpre & Hcr).
      exists pre, p, post, ex. repeat split; try assumption; try apply Hcr.
      rewrite (loop_crashes _ _ _ _ _ _ _ _ Hpre Hcr). simpl. rewrite app_assoc. reflexivity.
  - left. exists ex. split; reflexivity.
Qed.

Lemma dict_update_keys k f (d : Dict) : (dict_update k f d).*1 = d.*1.
Proof.
  induction d as [|[k' v'] d IH]; [reflexivity|].
  simpl. destruct (String.eqb k k'); simpl; [reflexivity | f_equal; exact IH].
Qed.

Lemma set_own_binaries w : Workflow.set_binaries (Workflow._binaries w) w = w.
Proof. destruct w; reflexivity. Qed.

Lemma same_config_refl w : same_config w w.
Proof. repeat split. Qed.

Lemma same_config_trans w1 w2 w3 :
  same_config w1 w2 -> same_config w2 w3 -> same_config w1 w3.
Proof.
  intros (a1 & b1 & c1 & d1) (a2 & b2 & c2 & d2).
  repeat split; congruence.
Qed.

Lemma same_config_set_binaries d w : same_config w (Workflow.set_binaries d w).
Proof. repeat split. Qed.

Lemma loop_step_refl st : loop_step st st.
Proof. split; [apply same_config_refl | split; reflexivity]. Qed.

Lemma loop_step_trans st1 st2 st3 :
  loop_step st1 st2 -> loop_step st2 st3 -> loop_step st1 st3.
Proof.
  intros (c1 & k1 & e1) (c2 & k2 & e2).
  split; [eapply same_config_trans; eassumption | split; congruence].
Qed.

(** Logging requirement reads and validations is a loop step. *)
Lemma loop_step_log st bp b l :
  loop_step st (mkState (self st) (calls st ++ reads bp ++ validations b l)).
Proof.
  split; [apply same_config_refl | split; [reflexivity|]]. simpl.
  rewrite !executed_app, executed_reads, executed_validations, app_nil_r. reflexivity.
Qed.

Lemma loop_step_assigned st bp b r l :
  loop_step st (mkState (assigned b r (self st)) (calls st ++ reads bp ++ validations b l)).
Proof.
  split; [apply same_config_set_binaries | split].
  - simpl. apply dict_update_keys.
  - simpl. rewrite !executed_app, executed_reads, executed_validations, app_nil_r. reflexivity.
Qed.

(** One iteration: a loop step that adds at most one valid path, and only
    one a candidate was accepted with; the only exceptions are uncaught
    ones. *)
Lemma binary_body_step b bp valid_paths st :
  loop_step st (binary_body b bp valid_paths st).2
  ∧ match (binary_body b bp valid_paths st).1 with
    | Return valid_paths' =>
        valid_paths' = valid_paths
        ∨ ∃ l p r, candidate_list bp = Return l ∧ p ∈ l
                   ∧ accepts (BinaryPath.validator bp) p r
                   ∧ valid_paths' = valid_paths ++ [r]
    | Raise e =>
        ∃ ex, e = Uncaught ex
              ∧ (candidate_list bp = Raise ex
                 ∨ ∃ l p, candidate_list bp = Return l ∧ p ∈ l
                          ∧ crashes (BinaryPath.validator bp) p ex)
    end.
Proof.
  destruct (binary_body_cases b bp valid_paths st) as [H|[H|[H|H]]].
  - destruct H as (ex & Hl & ->). simpl. split; [apply loop_step_refl|].
    exists ex. split; [reflexivity | left; assumption].
  - destruct H as (l & Hl & Hs & ->). simpl. split; [apply loop_step_log|].
    left. reflexivity.
  - destruct H as (pre & p & post & r & Hl & Hs & Hacc & ->). simpl.
    split; [apply loop_step_assigned|].
    right. exists (pre ++ p :: post), p, r. repeat split; try assumption; try apply Hacc.
    apply elem_of_app. right. left.
  - destruct H as (pre & p & post & ex & Hl & Hs & Hcr & ->). simpl.
    split; [apply loop_step_log|].
    exists ex. split; [reflexivity|]. right.
    exists (pre ++ p :: post), p. repeat split; try assumption; try apply Hcr.
    apply elem_of_app. right. left.
Qed.

Lemma for_binary_cons b bp rest valid_paths st :
  for_binary ((b, bp) :: rest) valid_paths st =
  match binary_body b bp valid_paths st with
  | (Return valid_paths', st') => for_binary rest valid_paths' st'
  | (Raise e, st') => (Raise e, st')
  end.
Proof. reflexivity. Qed.

(** The whole loop is a loop step; it raises nothing but uncaught
    exceptions; it collects at most one path per requirement, and fewer when
    a requirement is unsatisfiable. *)
Lemma for_binary_step items valid_paths st :
  loop_step st (for_binary items valid_paths st).2
  ∧ match (for_binary items valid_paths st).1 with
    | Return valid_paths' =>
        length valid_paths' ≤ length valid_paths + length items
        ∧ (Exists (fun item => unsatisfiable item.2) items ->
           length valid_paths' < length valid_paths + length items)
    | Raise e => ∃ ex, e = Uncaught ex
    end.
Proof.
  revert valid_paths st. induction items as [|[b bp] rest IH]; intros valid_paths st.
  - simpl. split; [apply loop_step_refl|]. split; [lia|].
    intros H. inversion H.
  - rewrite for_binary_cons.
    destruct (binary_body_step b bp valid_paths st) as [Hstep Hres].
    destruct (binary_body b bp valid_paths st) as [[valid_paths'|e] st'] eqn:Hbody; simpl in *.
    + specialize (IH valid_paths' st'). destruct IH as [Hstep' Hres'].
      split; [eapply loop_step_trans; eassumption|].
      destruct (for_binary rest valid_paths' st').1 as [final|e]; [|assumption].
      destruct Hres' as [Hle Hlt].
      destruct Hres as [->|(l & p & r & Hl & Hp & Hacc & ->)].
      * split; [lia|]. intros _. lia.
      * rewrite length_app in Hle, Hlt. simpl in Hle, Hlt.
        split; [lia|]. intros Hex. apply Exists_cons in Hex as [Hu|Hex].
        -- exfalso. exact (Hu l p r Hl Hp Hacc).
        -- specialize (Hlt Hex). lia.
    + split; [assumption|]. destruct Hres as (ex & -> & _). exists ex. reflexivity.
Qed.

(** Without crashes the loop returns. *)
Lemma for_binary_returns items valid_paths st :
  Forall (fun item => crash_free item.2) items ->
  ∃ valid_paths', (for_binary items valid_paths st).1 = Return valid_paths'.
Proof.
  intros H. revert valid_paths st. induction H as [|[b bp] rest Hbp _ IH]; intros valid_paths st.
  - exists valid_paths. reflexivity.
  - rewrite for_binary_cons.
    pose proof (binary_body_step b bp valid_paths st) as [_ Hres].
    destruct (binary_body b bp valid_paths st) as [[valid_paths'|e] st']; simpl in *.
    + apply IH.
    + exfalso. destruct Hbp as (l & Hl & Hfree).
      destruct Hres as (ex & _ & [Hraise|(l' & p & Hl' & Hp & Hcr)]).
      * congruence.
      * rewrite Hl in Hl'. injection Hl' as <-. exact (Hfree p ex Hp Hcr).
Qed.

(** ** The [binaries] property *)

Lemma binaries_spec st :
  binaries st =
  if bool_decide (Workflow._binaries (self st) = [])
  then
    let d := binaries_of (Workflow.get_resolvers (self st)) (Workflow.get_validators (self st)) in
    (Return d, mkState (Workflow.set_binaries d (self st))
                       (calls st ++ [CallGetResolvers; CallGetValidators]))
  else (Return (Workflow._binaries (self st)), st).
Proof.
  unfold binaries, bind, get_self.
  destruct (bool_decide (Workflow._binaries (self st) = [])); simpl.
  - rewrite <- app_assoc. reflexivity.
  - reflexivity.
Qed.

(** The getter returns [requirements], stores it, and calls no collaborator
    other than the two extension points. *)
Lemma binaries_returns st :
  ∃ st1, binaries st = (Return (requirements (self st)), st1)
         ∧ Workflow._binaries (self st1) = requirements (self st)
         ∧ same_config (self st) (self st1)
         ∧ executed (calls st1) = executed (calls st)
         ∧ resolved (calls st1) = resolved (calls st)
         ∧ validated (calls st1) = validated (calls st).
Proof.
  rewrite binaries_spec. unfold requirements.
  destruct (bool_decide (Workflow._binaries (self st) = [])); simpl.
  - eexists. split; [reflexivity|]. simpl.
    rewrite executed_app, resolved_app, validated_app. simpl. rewrite !app_nil_r.
    repeat split.
  - exists st. repeat split.
Qed.

Lemma binaries_cached st :
  Workflow._binaries (self st) ≠ [] ->
  binaries st = (Return (Workflow._binaries (self st)), st).
Proof.
  intros H. rewrite binaries_spec. rewrite bool_decide_eq_false_2 by exact H. reflexivity.
Qed.

(** ** The gate as a whole *)

Lemma gate_unfold st :
  gate st =
  match binaries st with
  | (Return items, st1) =>
      match for_binary items [] st1 with
      | (Return valid_paths, st2) =>
          match binaries (mkState (Workflow.set_binaries (Workflow._binaries (self st2)) (self st2))
                                  (calls st2)) with
          | (Return b, st3) =>
              if negb (length b =? length valid_paths)
              then (Raise (binary_validation_failed (self st2)), st3)
              else (Return tt, st3)
          | (Raise e, st3) => (Raise e, st3)
          end
      | (Raise e, st2) => (Raise e, st2)
      end
  | (Raise e, st1) => (Raise e, st1)
  end.
Proof.
  unfold gate, bind, get_self, binaries_setter, modify_self, binary_validation_failed.
  destruct (binaries st) as [[items|e] st1]; [|reflexivity].
  destruct (for_binary items [] st1) as [[valid_paths|e] st2]; [|reflexivity].
  simpl.
  destruct (binaries _) as [[b|e] st3]; [|reflexivity].
  destruct (negb (length b =? length valid_paths)); reflexivity.
Qed.

(** The three ways through the gate. *)
Lemma gate_cases st :
  let items := requirements (self st) in
  ∃ st1, binaries st = (Return items, st1)
    ∧ Workflow._binaries (self st1) = items
    ∧ same_config (self st) (self st1)
    ∧ executed (calls st1) = executed (calls st)
    ∧ ((∃ ex st2, for_binary items [] st1 = (Raise (Uncaught ex), st2)
                  ∧ gate st = (Raise (Uncaught ex), st2))
       ∨ (∃ valid_paths st2, for_binary items [] st1 = (Return valid_paths, st2)
                  ∧ items ≠ []
                  ∧ gate st =
                    (if length items =? length valid_paths
                     then Return tt else Raise (binary_validation_failed (self st)), st2))
       ∨ (items = []
          ∧ gate st =
            (Return tt,
             mkState (self st)
               (calls st ++ [CallGetResolvers; CallGetValidators;
                             CallGetResolvers; CallGetValidators])))).
Proof.
  intros items.
  destruct (binaries_returns st) as (st1 & Hget & Hb & Hcfg & Hex & _ & _).
  exists st1. fold items in Hget, Hb. repeat split; try assumption; try apply Hcfg.
  rewrite gate_unfold, Hget.
  destruct (decide (items = [])) as [Hempty|Hne].
  - right. right. split; [assumption|].
    assert (Hraw : Workflow._binaries (self st) = []).
    { subst items. unfold requirements in Hempty.
      destruct (bool_decide_reflect (Workflow._binaries (self st) = [])) as [H|H];
        [assumption | contradiction]. }
    assert (Hof : binaries_of (Workflow.get_resolvers (self st))
                    (Workflow.get_validators (self st)) = []).
    { subst items. unfold requirements in Hempty.
      rewrite bool_decide_eq_true_2 in Hempty by exact Hraw. exact Hempty. }
    rewrite binaries_spec in Hget. rewrite bool_decide_eq_true_2 in Hget by exact Hraw.
    simpl in Hget. rewrite Hof in Hget. injection Hget as Hitems <-.
    rewrite Hempty. simpl. unfold ret. simpl.
    rewrite Hof. simpl. rewrite <- !app_assoc. simpl.
    clear -Hraw. destruct st as [w log]. destruct w. simpl in *. subst. reflexivity.
  - pose proof (for_binary_step items [] st1) as [Hstep Hres].
    destruct (for_binary items [] st1) as [[valid_paths|e] st2] eqn:Hloop; simpl in *.
    + right. left. exists valid_paths, st2. repeat split; try assumption.
      rewrite set_own_binaries, state_eta.
      destruct Hstep as (Hcfg2 & Hkeys & _).
      assert (Hlen : length (Workflow._binaries (self st2)) = length items).
      { rewrite <- (length_fmap fst (Workflow._binaries (self st2))), Hkeys, Hb.
        apply length_fmap. }
      rewrite binaries_cached.
      * rewrite Hlen. unfold binary_validation_failed.
        destruct Hcfg2 as (-> & _). destruct Hcfg as (-> & _).
        destruct (length items =? length valid_paths); reflexivity.
      * intros Hnil. rewrite Hnil in Hlen. destruct items; [contradiction | discriminate].
    + left. destruct Hres as (ex & ->). exists ex, st2. split; reflexivity.
Qed.

Lemma gate_preserves st :
  same_config (self st) (self (gate st).2)
  ∧ executed (calls (gate st).2) = executed (calls st).
Proof.
  destruct (gate_cases st) as (st1 & _ & _ & Hcfg & Hex & [H|[H|H]]).
  - destruct H as (ex & st2 & Hloop & ->). simpl.
    pose proof (for_binary_step (requirements (self st)) [] st1) as [(Hc & _ & He) _].
    rewrite Hloop in Hc, He. simpl in Hc, He.
    split; [eapply same_config_trans; eassumption | congruence].
  - destruct H as (valid_paths & st2 & Hloop & _ & ->). simpl.
    pose proof (for_binary_step (requirements (self st)) [] st1) as [(Hc & _ & He) _].
    rewrite Hloop in Hc, He. simpl in Hc, He.
    split; [eapply same_config_trans; eassumption | congruence].
  - destruct H as (_ & ->). simpl. split; [apply same_config_refl|].
    rewrite executed_app. simpl. apply app_nil_r.
Qed.

(** The gate raises its own fault or lets a collaborator's through; it
    never raises the fault of an empty pipeline. *)
Lemma gate_faults st e :
  (gate st).1 = Raise e ->
  e = binary_validation_failed (self st) ∨ ∃ ex, e = Uncaught ex.
Proof.
  destruct (gate_cases st) as (st1 & _ & _ & _ & _ & [H|[H|H]]).
  - destruct H as (ex & st2 & _ & ->). simpl. intros [= <-]. right. exists ex. reflexivity.
  - destruct H as (valid_paths & st2 & _ & _ & ->). simpl.
    destruct (length _ =? length _); [discriminate|].
    intros [= <-]. left. reflexivity.
  - destruct H as (_ & ->). discriminate.
Qed.

(** ** The action pipeline *)

Lemma for_action_cons NAME a rest st :
  for_action NAME (a :: rest) st =
  let st1 := mkState (self st) (calls st ++ [CallExecute a]) in
  match Action.execute a with
  | Return _ => for_action NAME rest st1
  | Raise ex =>
      match exn_class ex with
      | ActionFailedError =>
          (Raise (WorkflowFailedError NAME (Some (Action.NAME a)) (exn_str ex)), st1)
      | _ => (Raise (WorkflowUnknownError NAME (Some (Action.NAME a)) (exn_str ex)), st1)
      end
  end.
Proof.
  simpl. unfold bind at 1. rewrite emit_spec.
  destruct (Action.execute a) as [[]|ex]; [reflexivity|].
  destruct (exn_class ex); reflexivity.
Qed.

(** All actions complete: all are executed, in order. *)
Lemma pipeline_completes NAME l st :
  Forall completes l ->
  for_action NAME l st = (Return tt, mkState (self st) (calls st ++ executions l)).
Proof.
  intros H. revert st. induction H as [|a l Ha _ IH]; intros st.
  - simpl. unfold ret, executions. simpl. rewrite app_nil_r, state_eta. reflexivity.
  - rewrite for_action_cons. unfold completes in Ha. rewrite Ha. simpl.
    rewrite IH. simpl. unfold executions. simpl. rewrite <- app_assoc. reflexivity.
Qed.

(** The first action that raises ends the pipeline: the actions before it
    and itself have been executed, none after it. *)
Lemma pipeline_stops w pre a post ex st :
  Forall completes pre ->
  Action.execute a = Raise ex ->
  for_action (Workflow.NAME w) (pre ++ a :: post) st =
  (Raise (action_fault w a ex), mkState (self st) (calls st ++ executions (pre ++ [a]))).
Proof.
  intros H Ha. revert st. induction H as [|b pre Hb _ IH]; intros st.
  - simpl app. rewrite for_action_cons, Ha. unfold action_fault.
    destruct (exn_class ex); reflexivity.
  - simpl app. rewrite for_action_cons. unfold completes in Hb. rewrite Hb. simpl.
    rewrite IH. simpl. unfold executions. simpl. rewrite <- app_assoc. reflexivity.
Qed.

(** A pipeline completes or has a first action that raises. *)
Lemma pipeline_dichotomy (l : list Action.t) :
  Forall completes l
  ∨ ∃ pre a post ex, l = pre ++ a :: post ∧ Forall completes pre ∧ Action.execute a = Raise ex.
Proof.
  induction l as [|b l IH].
  - left. constructor.
  - destruct (Action.execute b) as [[]|ex] eqn:Hb.
    + destruct IH as [H|(pre & a & post & ex & -> & Hpre & Ha)].
      * left. constructor; assumption.
      * right. exists (b :: pre), a, post, ex. repeat split; [|assumption].
        constructor; assumption.
    + right. exists [], b, l, ex. repeat split; [constructor | assumption].
Qed.

Lemma run_body_spec st :
  run_body st =
  if bool_decide (Workflow.actions (self st) = [])
  then (Raise (no_actions_registered (self st)), st)
  else for_action (Workflow.NAME (self st)) (Workflow.actions (self st)) st.
Proof.
  unfold run_body, bind, get_self.
  destruct (bool_decide (Workflow.actions (self st) = [])); reflexivity.
Qed.

Lemma run_unfold st :
  run st =
  match gate st with
  | (Return _, st') => run_body st'
  | (Raise e, st') => (Raise e, st')
  end.
Proof. reflexivity. Qed.

(** Once the gate has passed, [run] is the pipeline on the state the gate
    left. *)
Lemma run_after_gate st st' :
  gate st = (Return tt, st') ->
  Workflow.actions (self st) ≠ [] ->
  run st = for_action (Workflow.NAME (self st)) (Workflow.actions (self st)) st'
  ∧ executed (calls st') = executed (calls st).
Proof.
  intros Hg Hne. pose proof (gate_preserves st) as [(Hn & Ha & _) He].
  rewrite Hg in Hn, Ha, He. simpl in Hn, Ha, He.
  split; [|assumption].
  rewrite run_unfold, Hg, run_body_spec, Ha, Hn.
  rewrite bool_decide_eq_false_2 by exact Hne. reflexivity.
Qed.

(** C4: with actions [A1; A2; A3] and a gate that passes, when A1 completes
    and A2 raises an action-failed fault, [run] executes A1 then A2 and no
    other action, and raises a [WorkflowFailedError] carrying the workflow's
    name, A2's name and the text of A2's fault. *)
Theorem failed_action_stops_pipeline (st st' : State) (A1 A2 A3 : Action.t) (ex : PyExn) :
  Workflow.actions (self st) = [A1; A2; A3] ->
  gate st = (Return tt, st') ->
  completes A1 ->
  Action.execute A2 = Raise ex ->
  exn_class ex = ActionFailedError ->
  run st =
    (Raise (WorkflowFailedError (Workflow.NAME (self st)) (Some (Action.NAME A2)) (exn_str ex)),
     mkState (self st') (calls st' ++ [CallExecute A1; CallExecute A2]))
  ∧ executed (calls (run st).2) = executed (calls st) ++ [A1; A2].
Proof.
  intros Hactions Hgate H1 H2 Hclass.
  destruct (run_after_gate st st' Hgate) as [Hrun Hex].
  { rewrite Hactions. discriminate. }
  rewrite Hactions in Hrun.
  change [A1; A2; A3] with ([A1] ++ A2 :: [A3]) in Hrun.
  rewrite (pipeline_stops (self st) [A1] A2 [A3] ex st') in Hrun;
    [|repeat constructor; assumption | assumption].
  unfold action_fault in Hrun. rewrite Hclass in Hrun.
  split; [exact Hrun|].
  rewrite Hrun. simpl. rewrite executed_app, Hex. reflexivity.
Qed.

(** C5: with a gate that passes, when the actions before some action all
    complete and that action raises a fault that is not an action-failed
    fault, [run] executes the actions up to and including it and none after
    it, and raises a [WorkflowUnknownError], which is not a
    [WorkflowFailedError], carrying the workflow's name, the action's name
    and the text of the fault. *)
Theorem crashed_action_is_unknown_failure (st st' : State) (pre post : list Action.t)
    (A : Action.t) (ex : PyExn) :
  Workflow.actions (self st) = pre ++ A :: post ->
  gate st = (Return tt, st') ->
  Forall completes pre ->
  Action.execute A = Raise ex ->
  exn_class ex ≠ ActionFailedError ->
  run st =
    (Raise (WorkflowUnknownError (Workflow.NAME (self st)) (Some (Action.NAME A)) (exn_str ex)),
     mkState (self st') (calls st' ++ executions (pre ++ [A])))
  ∧ executed (calls (run st).2) = executed (calls st) ++ pre ++ [A]
  ∧ ∀ name action reason, (run st).1 ≠ Raise (WorkflowFailedError name action reason).
Proof.
  intros Hactions Hgate Hpre HA Hclass.
  destruct (run_after_gate st st' Hgate) as [Hrun Hex].
  { rewrite Hactions. intros H. symmetry in H. exact (app_cons_not_nil _ _ _ H). }
  rewrite Hactions in Hrun.
  rewrite (pipeline_stops (self st) pre A post ex st' Hpre HA) in Hrun.
  assert (Hfault : action_fault (self st) A ex =
            WorkflowUnknownError (Workflow.NAME (self st)) (Some (Action.NAME A)) (exn_str ex)).
  { unfold action_fault. destruct (exn_class ex); try reflexivity. contradiction. }
  rewrite Hfault in Hrun.
  split; [exact Hrun|]. rewrite Hrun. simpl. split.
  - rewrite executed_app, Hex, executed_executions. reflexivity.
  - discriminate.
Qed.

(** ** An unsatisfiable requirement *)

Lemma gate_unsatisfied st binary bp :
  (binary, bp) ∈ requirements (self st) ->
  unsatisfiable bp ->
  ((gate st).1 = Raise (binary_validation_failed (self st)) ∨ ∃ ex, (gate st).1 = Raise (Uncaught ex))
  ∧ (Forall (fun item => crash_free item.2) (requirements (self st)) ->
     (gate st).1 = Raise (binary_validation_failed (self st))).
Proof.
  intros Hin Hunsat.
  assert (Hex : Exists (fun item => unsatisfiable item.2) (requirements (self st))).
  { apply Exists_exists. exists (binary, bp). split; assumption. }
  destruct (gate_cases st) as (st1 & _ & _ & _ & _ & [H|[H|H]]).
  - destruct H as (ex & st2 & Hloop & ->). simpl. split.
    + right. exists ex. reflexivity.
    + intros Hfree.
      destruct (for_binary_returns _ [] st1 Hfree) as (valid_paths & Hret).
      rewrite Hloop in Hret. discriminate.
  - destruct H as (valid_paths & st2 & Hloop & _ & ->).
    pose proof (for_binary_step (requirements (self st)) [] st1) as [_ Hres].
    rewrite Hloop in Hres. simpl in Hres. destruct Hres as [_ Hlt]. specialize (Hlt Hex).
    assert (Hneq : (length (requirements (self st)) =? length valid_paths) = false).
    { apply Nat.eqb_neq. lia. }
    rewrite Hneq. simpl. split; [left; reflexivity | intros _; reflexivity].
  - destruct H as (Hempty & _). rewrite Hempty in Hin. inversion Hin.
Qed.

Lemma run_gate_raise st e :
  (gate st).1 = Raise e -> run st = (Raise e, (gate st).2).
Proof.
  intros H. rewrite run_unfold. destruct (gate st) as [[[]|e'] st']; simpl in *.
  - discriminate.
  - congruence.
Qed.

(** With an unsatisfiable requirement and no crash, [run] raises the fault
    of the gate. *)
Lemma unsatisfied_gate_fault st binary bp :
  (binary, bp) ∈ requirements (self st) ->
  unsatisfiable bp ->
  Forall (fun item => crash_free item.2) (requirements (self st)) ->
  (run st).1 = Raise (binary_validation_failed (self st)).
Proof.
  intros Hin Hunsat Hfree.
  destruct (gate_unsatisfied st binary bp Hin Hunsat) as [_ H].
  rewrite (run_gate_raise st _ (H Hfree)). reflexivity.
Qed.

(** C1, as amended: when some requirement of the instance has no candidate
    that validates, [run] executes no action and raises: the
    binary-validation-failed fault (a [WorkflowFailedError] with the
    workflow's name, no action and the reason 'Binary validation failed!'),
    or else a fault that a validator or the iteration of an override raised
    and the gate does not catch; it is the binary-validation-failed fault
    whenever the candidates of every requirement can be enumerated and no
    validator raises anything but runtime mismatches on them. *)
Theorem unsatisfied_requirement_blocks_actions (st : State) (binary : string) (bp : BinaryPath.t) :
  (binary, bp) ∈ requirements (self st) ->
  unsatisfiable bp ->
  executed (calls (run st).2) = executed (calls st)
  ∧ ((run st).1 = Raise (binary_validation_failed (self st))
     ∨ ∃ ex, (run st).1 = Raise (Uncaught ex))
  ∧ (Forall (fun item => crash_free item.2) (requirements (self st)) ->
     (run st).1 = Raise (binary_validation_failed (self st))).
Proof.
  intros Hin Hunsat.
  destruct (gate_unsatisfied st binary bp Hin Hunsat) as [Hraise Hfree].
  assert (Hrun : ∀ e, (gate st).1 = Raise e -> (run st).1 = Raise e
                      ∧ executed (calls (run st).2) = executed (calls st)).
  { intros e He. rewrite (run_gate_raise st e He). simpl.
    split; [reflexivity | apply gate_preserves]. }
  split; [|split].
  - destruct Hraise as [H|[ex H]]; apply (Hrun _ H).
  - destruct Hraise as [H|[ex H]].
    + left. apply (Hrun _ H).
    + right. exists ex. apply (Hrun _ H).
  - intros H. apply (Hrun _ (Hfree H)).
Qed.

Lemma tool_in_unsatisfied_workflow :
  ("tool", BinaryPath.new tool_resolver strict_validator "tool")
  ∈ requirements (self (mkState unsatisfied_workflow [])).
Proof. vm_compute. left. Qed.

Lemma strict_validator_unsatisfiable r b :
  unsatisfiable (BinaryPath.new r strict_validator b).
Proof. intros l p v _ _ [H _]. discriminate H. Qed.

Lemma unsatisfied_requirement_blocks_actions_witness :
  executed (calls (run (mkState unsatisfied_workflow [])).2) = []
  ∧ ((run (mkState unsatisfied_workflow [])).1 = Raise (binary_validation_failed unsatisfied_workflow)
     ∨ ∃ ex, (run (mkState unsatisfied_workflow [])).1 = Raise (Uncaught ex))
  ∧ (Forall (fun item => crash_free item.2) (requirements unsatisfied_workflow) ->
     (run (mkState unsatisfied_workflow [])).1 = Raise (binary_validation_failed unsatisfied_workflow)).
Proof.
  exact (unsatisfied_requirement_blocks_actions (mkState unsatisfied_workflow []) "tool"
           (BinaryPath.new tool_resolver strict_validator "tool")
           tool_in_unsatisfied_workflow
           (strict_validator_unsatisfiable tool_resolver "tool")).
Defined.

(** C1, counterexample: the first requirement of [broken_workflow] has no
    candidate that validates, yet [run] raises the [OSError] of the second
    requirement's validator, not the binary-validation-failed fault. *)
Lemma validator_fault_masks_gate_failure :
  ¬ unsatisfied_requirement_is_reported (mkState broken_workflow []).
Proof.
  intros H. destruct H as [Hfault _].
  - exists "tool", (BinaryPath.new tool_resolver strict_validator "tool").
    split; [vm_compute; left | apply strict_validator_unsatisfiable].
  - vm_compute in Hfault. discriminate Hfault.
Qed.

(** ** The empty pipeline *)

Lemma no_actions_is_not_gate_fault w w' :
  no_actions_registered w ≠ binary_validation_failed w'.
Proof. unfold no_actions_registered, binary_validation_failed. intros [= _ H]. Qed.

(** C6: for an instance without actions, [run] raises the
    no-actions-registered fault (a [WorkflowFailedError] with the workflow's
    name, no action and the reason 'Workflow does not have any actions
    registered') exactly when the gate has passed; whatever the gate raises
    is raised instead: the binary-validation-failed fault or a fault the gate
    did not catch, and the former when a requirement is unsatisfiable and no
    validator crashes. *)
Theorem empty_pipeline_fails_after_gate (st : State) :
  Workflow.actions (self st) = [] ->
  (∀ st', gate st = (Return tt, st') ->
          run st = (Raise (no_actions_registered (self st)), st'))
  ∧ (∀ e st', gate st = (Raise e, st') ->
              run st = (Raise e, st')
              ∧ e ≠ no_actions_registered (self st)
              ∧ (e = binary_validation_failed (self st) ∨ ∃ ex, e = Uncaught ex))
  ∧ ((run st).1 = Raise (no_actions_registered (self st)) -> (gate st).1 = Return tt)
  ∧ (∀ binary bp,
       (binary, bp) ∈ requirements (self st) -> unsatisfiable bp ->
       Forall (fun item => crash_free item.2) (requirements (self st)) ->
       (run st).1 = Raise (binary_validation_failed (self st))).
Proof.
  intros Hactions.
  assert (Hraise : ∀ e st', gate st = (Raise e, st') ->
            run st = (Raise e, st')
            ∧ e ≠ no_actions_registered (self st)
            ∧ (e = binary_validation_failed (self st) ∨ ∃ ex, e = Uncaught ex)).
  { intros e st' Hg.
    assert (Hkind : e = binary_validation_failed (self st) ∨ ∃ ex, e = Uncaught ex).
    { apply gate_faults. rewrite Hg. reflexivity. }
    split; [|split; [|exact Hkind]].
    - rewrite run_unfold, Hg. reflexivity.
    - destruct Hkind as [->|[ex ->]].
      + intros H. symmetry in H. exact (no_actions_is_not_gate_fault _ _ H).
      + discriminate. }
  split; [|split; [exact Hraise|split]].
  - intros st' Hg. rewrite run_unfold, Hg, run_body_spec.
    pose proof (gate_preserves st) as [(Hn & Ha & _) _]. rewrite Hg in Hn, Ha. simpl in Hn, Ha.
    rewrite Ha, Hactions. simpl. unfold no_actions_registered. rewrite Hn. reflexivity.
  - intros Hrun. destruct (gate st) as [[[]|e] st'] eqn:Hg; [reflexivity|].
    destruct (Hraise e st' eq_refl) as (Hr & Hne & _). rewrite Hr in Hrun. simpl in Hrun.
    congruence.
  - intros binary bp Hin Hunsat Hfree.
    apply (unsatisfied_gate_fault st binary bp Hin Hunsat Hfree).
Qed.

Lemma empty_pipeline_fails_after_gate_witness :
  run (mkState idle_workflow []) =
  (Raise (no_actions_registered idle_workflow), (gate (mkState idle_workflow [])).2).
Proof.
  apply (proj1 (empty_pipeline_fails_after_gate (mkState idle_workflow []) eq_refl)).
  vm_compute. reflexivity.
Defined.

Lemma failed_action_stops_pipeline_witness :
  run (mkState sample_workflow []) =
    (Raise (WorkflowFailedError (PyStr "SampleWorkflow") (Some "ResolveDependencies")
              "pip install failed"),
     mkState (self (gate (mkState sample_workflow [])).2)
             (calls (gate (mkState sample_workflow [])).2
              ++ [CallExecute copy_source; CallExecute resolve_dependencies]))
  ∧ executed (calls (run (mkState sample_workflow [])).2) = [copy_source; resolve_dependencies].
Proof.
  apply (failed_action_stops_pipeline (mkState sample_workflow [])
           (gate (mkState sample_workflow [])).2
           copy_source resolve_dependencies compile_source
           (mkExn ActionFailedError "pip install failed")).
  - reflexivity.
  - vm_compute. reflexivity.
  - reflexivity.
  - reflexivity.
  - reflexivity.
Defined.

Lemma crashed_action_is_unknown_failure_witness :
  (run (mkState buggy_workflow [])).1 =
  Raise (WorkflowUnknownError (PyStr "BuggyWorkflow") (Some "Buggy") "'runtime'").
Proof.
  refine (f_equal fst (proj1
    (crashed_action_is_unknown_failure (mkState buggy_workflow [])
       (gate (mkState buggy_workflow [])).2 [] [copy_source] buggy_action
       (mkExn (OtherException "KeyError") "'runtime'") eq_refl _ _ eq_refl _))).
  - vm_compute. reflexivity.
  - constructor.
  - discriminate.
Defined.

(** ** An empty mapping *)

(** What [run_body] logs and raises. *)
Lemma run_body_cases st :
  (Workflow.actions (self st) = []
   ∧ run_body st = (Raise (no_actions_registered (self st)), st))
  ∨ (Forall completes (Workflow.actions (self st))
     ∧ run_body st =
       (Return tt, mkState (self st) (calls st ++ executions (Workflow.actions (self st)))))
  ∨ (∃ pre a post ex,
       Workflow.actions (self st) = pre ++ a :: post
       ∧ Forall completes pre ∧ Action.execute a = Raise ex
       ∧ run_body st =
         (Raise (action_fault (self st) a ex),
          mkState (self st) (calls st ++ executions (pre ++ [a])))).
Proof.
  rewrite run_body_spec.
  destruct (decide (Workflow.actions (self st) = [])) as [He|Hne].
  - left. rewrite bool_decide_eq_true_2 by exact He. split; [assumption | reflexivity].
  - right. rewrite bool_decide_eq_false_2 by exact Hne.
    destruct (pipeline_dichotomy (Workflow.actions (self st)))
      as [H|(pre & a & post & ex & Hl & Hpre & Ha)].
    + left. split; [assumption|]. apply pipeline_completes. assumption.
    + right. exists pre, a, post, ex. repeat split; try assumption.
      rewrite Hl. apply pipeline_stops; assumption.
Qed.

(** The pipeline consults no resolver and no validator, and does not raise
    the fault of the gate. *)
Lemma run_body_quiet st :
  resolved (calls (run_body st).2) = resolved (calls st)
  ∧ validated (calls (run_body st).2) = validated (calls st)
  ∧ ∀ w, (run_body st).1 ≠ Raise (binary_validation_failed w).
Proof.
  destruct (run_body_cases st) as [[_ ->]|[[_ ->]|(pre & a & post & ex & _ & _ & _ & ->)]]; simpl.
  - repeat split. intros w H.
    apply (no_actions_is_not_gate_fault (self st) w). congruence.
  - rewrite resolved_app, validated_app, resolved_executions, validated_executions, !app_nil_r.
    repeat split. discriminate.
  - rewrite resolved_app, validated_app, resolved_executions, validated_executions, !app_nil_r.
    repeat split. intros w. unfold action_fault, binary_validation_failed.
    destruct (exn_class ex); discriminate.
Qed.

(** C10: when the mapping of an instance is empty and its resolver extension
    point yields no resolvers, the gate passes after asking the two extension
    points (twice) and nothing else, [run] is the action pipeline on the
    instance as it was, no resolver's candidates are read, no validator is
    called, and no binary-validation-failed fault is raised. *)
Theorem empty_mapping_passes_gate (st : State) :
  Workflow._binaries (self st) = [] ->
  Workflow.get_resolvers (self st) = [] ->
  let st' := mkState (self st)
               (calls st ++ [CallGetResolvers; CallGetValidators;
                             CallGetResolvers; CallGetValidators]) in
  gate st = (Return tt, st')
  ∧ run st = run_body st'
  ∧ resolved (calls (run st).2) = resolved (calls st)
  ∧ validated (calls (run st).2) = validated (calls st)
  ∧ ∀ w, (run st).1 ≠ Raise (binary_validation_failed w).
Proof.
  intros Hraw Hres st'.
  assert (Hreq : requirements (self st) = []).
  { unfold requirements. rewrite bool_decide_eq_true_2 by exact Hraw.
    rewrite Hres. reflexivity. }
  assert (Hgate : gate st = (Return tt, st')).
  { destruct (gate_cases st) as (st1 & _ & _ & _ & _ & [H|[H|H]]).
    - destruct H as (ex & st2 & Hloop & _).
      pose proof (binaries_returns st) as (st1' & Hget & _).
      exfalso. rewrite Hreq in Hloop. discriminate Hloop.
    - destruct H as (valid_paths & st2 & _ & Hne & _). contradiction.
    - destruct H as (_ & ->). reflexivity. }
  assert (Hrun : run st = run_body st') by (rewrite run_unfold, Hgate; reflexivity).
  destruct (run_body_quiet st') as (Hr & Hv & Hf).
  split; [exact Hgate | split; [exact Hrun|]].
  rewrite Hrun, Hr, Hv. subst st'. simpl.
  rewrite resolved_app, validated_app. simpl. rewrite !app_nil_r.
  repeat split. exact Hf.
Qed.

Lemma empty_mapping_passes_gate_witness :
  gate (mkState bare_workflow []) =
  (Return tt, mkState bare_workflow [CallGetResolvers; CallGetValidators;
                                     CallGetResolvers; CallGetValidators]).
Proof.
  exact (proj1 (empty_mapping_passes_gate (mkState bare_workflow []) eq_refl eq_refl)).
Defined.

(** ** One requirement within the gate *)

Lemma for_binary_app items1 items2 valid_paths st :
  for_binary (items1 ++ items2) valid_paths st =
  match for_binary items1 valid_paths st with
  | (Return valid_paths', st') => for_binary items2 valid_paths' st'
  | (Raise e, st') => (Raise e, st')
  end.
Proof.
  revert valid_paths st. induction items1 as [|[b bp] items1 IH]; intros valid_paths st.
  - reflexivity.
  - simpl app. rewrite !for_binary_cons.
    destruct (binary_body b bp valid_paths st) as [[valid_paths'|e] st']; [apply IH | reflexivity].
Qed.

Lemma dict_get_update k f (d : Dict) :
  dict_get k (dict_update k f d) = f <$> dict_get k d.
Proof.
  induction d as [|[k' v'] d IH]; [reflexivity|].
  simpl. destruct (String.eqb k k') eqn:E; simpl; rewrite E; [reflexivity | exact IH].
Qed.

Lemma dict_get_is_Some k (d : Dict) : k ∈ d.*1 -> is_Some (dict_get k d).
Proof.
  induction d as [|[k' v'] d IH]; simpl; intros H.
  - inversion H.
  - destruct (String.eqb_spec k k') as [|Hne]; [eexists; reflexivity|].
    apply IH. apply elem_of_cons in H as [H|H]; [contradiction | assumption].
Qed.

(** The state in which the loop reaches a requirement still holds every
    requirement under its key. *)
Lemma requirement_still_stored st before binary bp after valid_paths st2 :
  requirements (self st) = before ++ (binary, bp) :: after ->
  for_binary before [] (binaries st).2 = (Return valid_paths, st2) ->
  is_Some (dict_get binary (Workflow._binaries (self st2))).
Proof.
  intros Hreq Hloop.
  destruct (binaries_returns st) as (st1 & Hget & Hb & _).
  rewrite Hget in Hloop. simpl in Hloop.
  pose proof (for_binary_step before [] st1) as [(_ & Hkeys & _) _].
  rewrite Hloop in Hkeys. simpl in Hkeys.
  apply dict_get_is_Some. rewrite Hkeys, Hb, Hreq, fmap_app.
  apply elem_of_app. right. left.
Qed.

(** C2: for a requirement the loop of the gate reaches, with candidates [l]:
    the candidates are handed to the validator in order; a candidate rejected
    with a runtime mismatch makes the loop go on with the candidates after
    it; the first candidate the validator accepts ends the iteration, the
    path the validator returned is appended to the valid paths and stored as
    the requirement's [binary_path]; when every candidate is skipped all are
    tried and nothing is stored; and a fault other than a runtime mismatch
    raised on the first candidate that is not skipped leaves [run] as it
    is. *)
Theorem gate_tries_candidates_in_order (st : State) (before after : Dict) (binary : string)
    (bp : BinaryPath.t) (valid_paths : list PyVal) (st2 : State) (l : list string) :
  requirements (self st) = before ++ (binary, bp) :: after ->
  for_binary before [] (binaries st).2 = (Return valid_paths, st2) ->
  candidate_list bp = Return l ->
  let v := BinaryPath.validator bp in
  let log tried := calls st2 ++ reads bp ++ validations binary tried in
  (∀ pre p post r,
     l = pre ++ p :: post -> Forall (skips v) pre -> accepts v p r ->
     binary_body binary bp valid_paths st2 =
       (Return (valid_paths ++ [r]), mkState (assigned binary r (self st2)) (log (pre ++ [p])))
     ∧ BinaryPath.binary_path
         <$> dict_get binary (Workflow._binaries (assigned binary r (self st2))) = Some r)
  ∧ (∀ p rest paths s,
       rejects v p ->
       for_executable_path binary v (p :: rest) paths s =
       for_executable_path binary v rest paths
         (mkState (self s) (calls s ++ [CallValidate binary p])))
  ∧ (Forall (skips v) l ->
     binary_body binary bp valid_paths st2 = (Return valid_paths, mkState (self st2) (log l)))
  ∧ (∀ pre p post ex,
       l = pre ++ p :: post -> Forall (skips v) pre -> crashes v p ex ->
       run st = (Raise (Uncaught ex), mkState (self st2) (log (pre ++ [p])))).
Proof.
  intros Hreq Hloop Hl v log.
  assert (Hbody : ∀ s, binary_body binary bp valid_paths s =
            for_executable_path binary v l valid_paths
              (mkState (self s) (calls s ++ reads bp))).
  { intros s. unfold binary_body, bind. rewrite candidates_spec, Hl. reflexivity. }
  split; [|split; [|split]].
  - intros pre p post r -> Hpre Hacc. split.
    + rewrite Hbody, (loop_accepts _ _ _ _ _ _ _ _ Hpre Hacc). simpl.
      unfold log. rewrite app_assoc. reflexivity.
    + destruct (requirement_still_stored _ _ _ _ _ _ _ Hreq Hloop) as [stored Hstored].
      unfold assigned. simpl. rewrite dict_get_update, Hstored. reflexivity.
  - intros p rest paths s Hrej. apply skips_step, rejects_skips, Hrej.
  - intros Hall. rewrite Hbody, (loop_exhausted _ _ _ _ _ Hall). simpl.
    unfold log. rewrite app_assoc. reflexivity.
  - intros pre p post ex -> Hpre Hcr.
    destruct (binaries_returns st) as (st1 & Hget & _).
    rewrite Hget in Hloop. simpl in Hloop.
    rewrite run_unfold, gate_unfold, Hget, Hreq, for_binary_app, Hloop, for_binary_cons.
    rewrite Hbody, (loop_crashes _ _ _ _ _ _ _ _ Hpre Hcr). simpl.
    unfold log. rewrite app_assoc. reflexivity.
Qed.

Lemma gate_tries_candidates_in_order_witness :
  let st2 := (binaries (mkState sample_workflow [])).2 in
  let bp := BinaryPath.new tool_resolver tool_validator "tool" in
  binary_body "tool" bp [] st2 =
    (Return [PyStr "/usr/bin/tool"],
     mkState (assigned "tool" (PyStr "/usr/bin/tool") (self st2))
       (calls st2 ++ reads bp ++ validations "tool" ["/opt/bin/tool"; "/usr/bin/tool"]))
  ∧ BinaryPath.binary_path
      <$> dict_get "tool"
            (Workflow._binaries (assigned "tool" (PyStr "/usr/bin/tool") (self st2)))
    = Some (PyStr "/usr/bin/tool").
Proof.
  refine (proj1 (gate_tries_candidates_in_order (mkState sample_workflow []) [] [] "tool"
            (BinaryPath.new tool_resolver tool_validator "tool") []
            (binaries (mkState sample_workflow [])).2
            ["/opt/bin/tool"; "/usr/bin/tool"] eq_refl eq_refl eq_refl)
          ["/opt/bin/tool"] "/usr/bin/tool" [] (PyStr "/usr/bin/tool") eq_refl _ _).
  - constructor; [reflexivity | constructor].
  - split; reflexivity.
Defined.

(** ** Overrides and resolvers *)

(** The validator of a requirement is handed a prefix of its candidates, in
    order, after the candidates were read. *)
Lemma binary_body_log b bp valid_paths st l :
  candidate_list bp = Return l ->
  ∃ tried, tried `prefix_of` l
           ∧ calls (binary_body b bp valid_paths st).2 =
             calls st ++ reads bp ++ validations b tried.
Proof.
  intros Hl. destruct (binary_body_cases b bp valid_paths st) as [H|[H|[H|H]]].
  - destruct H as (ex & Hr & _). congruence.
  - destruct H as (l' & Hl' & _ & ->). exists l'. split; [|reflexivity].
    rewrite Hl in Hl'. injection Hl' as <-. reflexivity.
  - destruct H as (pre & p & post & r & Hl' & _ & _ & ->). exists (pre ++ [p]).
    split; [|reflexivity]. rewrite Hl in Hl'. injection Hl' as ->.
    exists post. rewrite <- app_assoc. reflexivity.
  - destruct H as (pre & p & post & ex & Hl' & _ & _ & ->). exists (pre ++ [p]).
    split; [|reflexivity]. rewrite Hl in Hl'. injection Hl' as ->.
    exists post. rewrite <- app_assoc. reflexivity.
Qed.





(** ** The lazily computed mapping *)

Lemma dict_get_set k k' v (d : Dict) :
  dict_get k (dict_set k' v d) = if String.eqb k k' then Some v else dict_get k d.
Proof.
  induction d as [|[k'' v''] d IH]; simpl.
  - reflexivity.
  - destruct (String.eqb_spec k' k'') as [->|Hne]; simpl.
    + destruct (String.eqb k k''); reflexivity.
    + destruct (String.eqb_spec k k'') as [->|Hne'].
      * destruct (String.eqb_spec k'' k'); [congruence | reflexivity].
      * exact IH.
Qed.

Lemma binaries_of_fold resolvers validators :
  binaries_of resolvers validators = fold_left pair_up (zip resolvers validators) [].
Proof. reflexivity. Qed.

(** Pairs under other names leave the entry of a name alone. *)
Lemma pair_up_miss (l : list (Resolver.t * Validator.t)) (d : Dict) k :
  (∀ rv, rv ∈ l -> Resolver.binary rv.1 ≠ k) ->
  dict_get k (fold_left pair_up l d) = dict_get k d.
Proof.
  revert d. induction l as [|rv l IH]; intros d Hl; [reflexivity|].
  simpl. rewrite IH.
  - unfold pair_up. rewrite dict_get_set.
    destruct (String.eqb_spec k (Resolver.binary rv.1)) as [Heq|]; [|reflexivity].
    exfalso. apply (Hl rv); [left | congruence].
  - intros rv' Hin. apply Hl. right. exact Hin.
Qed.

(** The last pair under a name is the one the mapping holds for it. *)
Lemma pair_up_hit (l : list (Resolver.t * Validator.t)) (d : Dict) i r v :
  l !! i = Some (r, v) ->
  (∀ j rv, i < j -> l !! j = Some rv -> Resolver.binary rv.1 ≠ Resolver.binary r) ->
  dict_get (Resolver.binary r) (fold_left pair_up l d)
  = Some (BinaryPath.new r v (Resolver.binary r)).
Proof.
  revert d i. induction l as [|rv l IH]; intros d i Hi Hlast; [discriminate|].
  destruct i as [|i]; simpl in *.
  - injection Hi as ->. rewrite pair_up_miss.
    + unfold pair_up. simpl. rewrite dict_get_set, String.eqb_refl. reflexivity.
    + intros rv' Hin. apply list_elem_of_lookup in Hin as [j Hj].
      apply (Hlast (S j)); [lia | exact Hj].
  - apply (IH _ i Hi). intros j rv' Hlt Hj. apply (Hlast (S j)); [lia | exact Hj].
Qed.

Lemma computations_app l1 l2 : computations (l1 ++ l2) = computations l1 + computations l2.
Proof. unfold computations. rewrite omap_app, length_app. reflexivity. Qed.

Lemma access_cached st :
  Workflow._binaries (self st) ≠ [] -> ∀ n, Nat.iter n access st = st.
Proof.
  intros H n. induction n as [|n IH]; [reflexivity|].
  simpl. rewrite IH. unfold access. rewrite (binaries_cached _ H). reflexivity.
Qed.

(** C9, as amended: on an instance whose [_binaries] is still empty, the
    first access of [binaries] calls the two extension points once each,
    pairs their results positionally into a mapping keyed by each resolver's
    binary name (the last pair under a name is the one kept), stores and
    returns it; when that mapping is not empty, every later access returns it
    without calling the extension points again, so that it is computed
    exactly once; when it is empty, the next access computes it again. *)
Theorem binaries_computed_on_first_access (st : State) :
  Workflow._binaries (self st) = [] ->
  let resolvers := Workflow.get_resolvers (self st) in
  let validators := Workflow.get_validators (self st) in
  let d := binaries_of resolvers validators in
  binaries st =
    (Return d, mkState (Workflow.set_binaries d (self st))
                       (calls st ++ [CallGetResolvers; CallGetValidators]))
  ∧ (∀ i r v,
       zip resolvers validators !! i = Some (r, v) ->
       (∀ j rv, i < j -> zip resolvers validators !! j = Some rv ->
                Resolver.binary rv.1 ≠ Resolver.binary r) ->
       dict_get (Resolver.binary r) d = Some (BinaryPath.new r v (Resolver.binary r)))
  ∧ (d ≠ [] ->
     binaries (access st) = (Return d, access st)
     ∧ ∀ n, Nat.iter (S n) access st = access st
            ∧ computations (calls (Nat.iter (S n) access st)) = S (computations (calls st)))
  ∧ (d = [] ->
     computations (calls (access (access st))) = S (S (computations (calls st)))).
Proof.
  intros Hraw resolvers validators d.
  assert (Hfirst : binaries st =
            (Return d, mkState (Workflow.set_binaries d (self st))
                               (calls st ++ [CallGetResolvers; CallGetValidators]))).
  { rewrite binaries_spec. rewrite bool_decide_eq_true_2 by exact Hraw. reflexivity. }
  assert (Hcount : computations (calls (access st)) = S (computations (calls st))).
  { unfold access. rewrite Hfirst. simpl. rewrite computations_app.
    change (computations [CallGetResolvers; CallGetValidators]) with 1. lia. }
  split; [exact Hfirst | split; [|split]].
  - intros i r v Hi Hlast. unfold d. rewrite binaries_of_fold.
    apply (pair_up_hit _ _ i); assumption.
  - intros Hne.
    assert (Hstored : Workflow._binaries (self (access st)) ≠ []).
    { unfold access. rewrite Hfirst. exact Hne. }
    split.
    + rewrite (binaries_cached _ Hstored). unfold access at 1. rewrite Hfirst. reflexivity.
    + intros n.
      assert (Hiter : Nat.iter (S n) access st = access st).
      { rewrite Nat.iter_succ_r. apply access_cached. exact Hstored. }
      split; [exact Hiter | rewrite Hiter; exact Hcount].
  - intros Hempty. unfold access at 1. rewrite binaries_spec.
    assert (Hstored : Workflow._binaries (self (access st)) = []).
    { unfold access. rewrite Hfirst. exact Hempty. }
    rewrite bool_decide_eq_true_2 by exact Hstored. simpl.
    rewrite computations_app, Hcount.
    change (computations [CallGetResolvers; CallGetValidators]) with 1. lia.
Qed.

Lemma binaries_computed_on_first_access_witness :
  binaries (mkState sample_workflow []) =
  (Return [("tool", BinaryPath.new tool_resolver tool_validator "tool")],
   mkState (Workflow.set_binaries [("tool", BinaryPath.new tool_resolver tool_validator "tool")]
              sample_workflow)
           [CallGetResolvers; CallGetValidators]).
Proof.
  exact (proj1 (binaries_computed_on_first_access (mkState sample_workflow []) eq_refl)).
Defined.

(** C9, counterexample: an instance whose extension points yield no
    resolvers computes its (empty) mapping again at the second access. *)
Lemma empty_mapping_is_recomputed : ¬ computed_exactly_once (mkState bare_workflow []).
Proof. intros H. specialize (H 1). vm_compute in H. discriminate H. Qed.

(** * Further properties *)

(** ** Manifest applicability *)

Lemma sep_is_slash : String sep EmptyString = "/".
Proof. reflexivity. Qed.

Lemma append_cons a s t : String a s +:+ t = String a (s +:+ t).
Proof. reflexivity. Qed.

Lemma rfind_bounds c s : (-1 <= rfind c s)%Z.
Proof.
  induction s as [|a rest IH]; simpl; [lia|].
  destruct (Z.leb_spec 0 (rfind c rest)); [lia|].
  destruct (Ascii.eqb a c); lia.
Qed.

Lemma rfind_absent c s : occurs c s = false -> rfind c s = (-1)%Z.
Proof.
  induction s as [|a rest IH]; simpl; [reflexivity|].
  intros H. apply orb_false_iff in H as [Ha Hrest].
  rewrite (IH Hrest), Ha. reflexivity.
Qed.

(** The last occurrence of [c] in [s +:+ String c name], when [c] does not
    occur in [name], is at the length of [s]. *)
Lemma rfind_last c s name :
  occurs c name = false ->
  rfind c (s +:+ String c name) = Z.of_nat (String.length s).
Proof.
  intros Hname. induction s as [|a rest IH].
  - change (EmptyString +:+ String c name) with (String c name). simpl.
    rewrite (rfind_absent _ _ Hname). simpl. rewrite Ascii.eqb_refl. reflexivity.
  - rewrite append_cons. simpl rfind. rewrite IH.
    destruct (Z.leb_spec 0 (Z.of_nat (String.length rest))); [|lia].
    simpl String.length. lia.
Qed.

Lemma slice_from_append s t : slice_from (String.length s) (s +:+ t) = t.
Proof. induction s as [|a rest IH]; [destruct t; reflexivity | exact IH]. Qed.

Lemma basename_of_name name : occurs sep name = false -> basename name = name.
Proof. intros H. unfold basename. rewrite (rfind_absent _ _ H). reflexivity. Qed.

Lemma append_sep dir name : (dir +:+ "/") +:+ name = dir +:+ String sep name.
Proof.
  induction dir as [|a rest IH]; [reflexivity|].
  rewrite !append_cons, IH. reflexivity.
Qed.

Lemma length_append_sep dir : String.length (dir +:+ "/") = S (String.length dir).
Proof.
  induction dir as [|a rest IH]; [reflexivity|].
  rewrite append_cons. simpl. rewrite IH. reflexivity.
Qed.

Lemma basename_of_path dir name :
  occurs sep name = false -> basename (dir +:+ String sep name) = name.
Proof.
  intros H. unfold basename. rewrite (rfind_last _ _ _ H).
  replace (Z.to_nat (Z.of_nat (String.length dir) + 1)) with (String.length (dir +:+ "/")).
  - rewrite <- (append_sep dir name). apply slice_from_append.
  - rewrite length_append_sep. lia.
Qed.

Lemma basename_trailing_sep dir : basename (dir +:+ "/") = EmptyString.
Proof. apply (basename_of_path dir EmptyString). reflexivity. Qed.

(** X1: [is_supported] looks at the last component of the manifest path
    only: for a name without separator, a path [dir/name] is supported
    exactly when the bare [name] is, and that is when the list of supported
    manifests is empty or holds [name]. *)
Theorem manifest_decided_by_last_component (manifests : list string) (dir name : string) :
  occurs sep name = false ->
  is_supported manifests (dir +:+ "/" +:+ name) = is_supported manifests name
  ∧ is_supported manifests name =
    (if bool_decide (manifests = []) then true else bool_decide (name ∈ manifests)).
Proof.
  intros H. unfold is_supported.
  change (dir +:+ "/" +:+ name) with (dir +:+ String sep name).
  rewrite (basename_of_path dir name H), (basename_of_name name H).
  split; [reflexivity|]. destruct (bool_decide (manifests = [])); reflexivity.
Qed.

Lemma manifest_decided_by_last_component_witness :
  is_supported ["requirements.txt"] ("/project/src" +:+ "/" +:+ "requirements.txt")
    = is_supported ["requirements.txt"] "requirements.txt"
  ∧ is_supported ["requirements.txt"] "requirements.txt"
    = (if bool_decide (["requirements.txt"] = @nil string) then true
       else bool_decide ("requirements.txt" ∈ ["requirements.txt"])).
Proof.
  exact (manifest_decided_by_last_component ["requirements.txt"] "/project/src"
           "requirements.txt" eq_refl).
Defined.

(** X2: a manifest path that ends with the separator has an empty last
    component: it is supported only when the list of supported manifests is
    empty or holds the empty string. *)
Theorem trailing_separator_hides_manifest (manifests : list string) (dir : string) :
  is_supported manifests (dir +:+ "/") = true
  <-> manifests = [] ∨ EmptyString ∈ manifests.
Proof.
  unfold is_supported. rewrite basename_trailing_sep.
  destruct (decide (manifests = [])) as [He|Hne].
  - rewrite bool_decide_eq_true_2 by exact He. simpl. split; [left; exact He | reflexivity].
  - rewrite (bool_decide_eq_false_2 _ Hne). simpl. rewrite bool_decide_eq_true.
    split; [intros H; right; exact H | intros [H|H]; [contradiction | exact H]].
Qed.

(** ** Registration, further *)

(** X3: the base class and classes marked for testing are returned as they
    are and leave the registry untouched, whatever their name and capability
    hold; no fault is raised for them. *)
Theorem base_and_testing_classes_are_skipped (cls : Class.t) (reg : Registry) :
  skipped cls -> metaclass_new cls reg = (Return cls, reg).
Proof.
  intros [Hname|Htest]; unfold metaclass_new.
  - rewrite Hname. reflexivity.
  - rewrite Htest, orb_true_r. reflexivity.
Qed.

Lemma base_and_testing_classes_are_skipped_witness :
  metaclass_new testing_workflow {[ python_pip := pip_workflow ]}
  = (Return testing_workflow, {[ python_pip := pip_workflow ]}).
Proof.
  apply base_and_testing_classes_are_skipped. right. reflexivity.
Defined.

(** The registry after [metaclass_new]: one insertion or none. *)
Lemma metaclass_new_registry cls reg :
  (metaclass_new cls reg).2 = reg
  ∨ ∃ key, Class.CAPABILITY cls = CapabilityObj key
           ∧ metaclass_new cls reg = (Return cls, register key cls reg).
Proof.
  unfold metaclass_new.
  destruct (String.eqb (Class.__name__ cls) "BaseWorkflow" || Class.__TESTING__ cls);
    [left; reflexivity|].
  destruct (Class.NAME cls) as [[| name |]|]; try (left; reflexivity).
  destruct (Class.CAPABILITY cls) as [|key]; [left; reflexivity|].
  right. exists key. split; reflexivity.
Qed.

(** X4: defining a class changes the registry at most under the class's own
    capability: the lookup of every other key is as before, whether the
    class is registered, skipped or refused. *)
Theorem registration_leaves_other_keys (cls : Class.t) (reg : Registry) (key : Capability) :
  Class.CAPABILITY cls ≠ CapabilityObj key ->
  lookup_workflow key (metaclass_new cls reg).2 = lookup_workflow key reg.
Proof.
  intros Hne. destruct (metaclass_new_registry cls reg) as [->|(key' & Hk & ->)];
    [reflexivity|].
  unfold lookup_workflow, register. simpl. apply lookup_insert_ne. congruence.
Qed.

Lemma registration_leaves_other_keys_witness :
  lookup_workflow python_pip (metaclass_new gradle_workflow {[ python_pip := pip_workflow ]}).2
  = lookup_workflow python_pip {[ python_pip := pip_workflow ]}.
Proof.
  apply registration_leaves_other_keys. discriminate.
Defined.

(** Whether a class is registered does not depend on the registry. *)
Lemma metaclass_new_shape cls :
  (∃ o, ∀ reg, metaclass_new cls reg = (o, reg))
  ∨ ∃ key, Class.CAPABILITY cls = CapabilityObj key
           ∧ ∀ reg, metaclass_new cls reg = (Return cls, register key cls reg).
Proof.
  unfold metaclass_new.
  destruct (String.eqb (Class.__name__ cls) "BaseWorkflow" || Class.__TESTING__ cls);
    [left; eexists; reflexivity|].
  destruct (Class.NAME cls) as [[| name |]|]; try (left; eexists; reflexivity).
  destruct (Class.CAPABILITY cls) as [|key]; [left; eexists; reflexivity|].
  right. exists key. split; reflexivity.
Qed.

(** X6: the order in which two classes with different capabilities are
    defined does not matter for the registry. *)
Theorem registration_order_is_irrelevant (first second : Class.t) (reg : Registry) :
  Class.CAPABILITY first ≠ Class.CAPABILITY second ->
  (metaclass_new second (metaclass_new first reg).2).2
  = (metaclass_new first (metaclass_new second reg).2).2.
Proof.
  intros Hne.
  destruct (metaclass_new_shape first) as [[o1 H1]|(k1 & Hk1 & H1)];
    destruct (metaclass_new_shape second) as [[o2 H2]|(k2 & Hk2 & H2)];
    rewrite ?H1, ?H2; simpl; rewrite ?H1, ?H2; simpl; try reflexivity.
  unfold register. apply insert_insert_ne. congruence.
Qed.

Lemma registration_order_is_irrelevant_witness :
  (metaclass_new gradle_workflow (metaclass_new pip_workflow ∅).2).2
  = (metaclass_new pip_workflow (metaclass_new gradle_workflow ∅).2).2.
Proof.
  apply registration_order_is_irrelevant. discriminate.
Defined.

(** ** The gate, further *)

Lemma binary_body_unfold b bp valid_paths st l :
  candidate_list bp = Return l ->
  binary_body b bp valid_paths st =
  for_executable_path b (BinaryPath.validator bp) l valid_paths
    (mkState (self st) (calls st ++ reads bp)).
Proof. intros Hl. unfold binary_body, bind. rewrite candidates_spec, Hl. reflexivity. Qed.

Lemma binary_body_accepts b bp valid_paths st pre p post r :
  candidate_list bp = Return (pre ++ p :: post) ->
  Forall (skips (BinaryPath.validator bp)) pre ->
  accepts (BinaryPath.validator bp) p r ->
  binary_body b bp valid_paths st =
  (Return (valid_paths ++ [r]),
   mkState (assigned b r (self st)) (calls st ++ reads bp ++ validations b (pre ++ [p]))).
Proof.
  intros Hl Hpre Hacc.
  rewrite (binary_body_unfold _ _ _ _ _ Hl), (loop_accepts _ _ _ _ _ _ _ _ Hpre Hacc).
  simpl. rewrite app_assoc. reflexivity.
Qed.

Lemma accepted_not_skipped v p r : accepts v p r -> ¬ skips v p.
Proof.
  intros [Hv Ht] Hs. unfold skips in Hs. rewrite Hv in Hs. congruence.
Qed.

(** A requirement whose candidates are all skipped is not satisfied. *)
Lemma exhausted_not_satisfied bp l :
  candidate_list bp = Return l ->
  Forall (skips (BinaryPath.validator bp)) l ->
  ¬ satisfied bp.
Proof.
  intros Hl Hall (pre & p & post & r & Hl' & _ & Hacc).
  rewrite Hl in Hl'. injection Hl' as ->.
  apply (accepted_not_skipped _ _ _ Hacc).
  rewrite Forall_forall in Hall. apply Hall. apply elem_of_app. right. left.
Qed.

Lemma for_binary_all_satisfied items valid_paths st :
  Forall (fun item => satisfied item.2) items ->
  ∃ valid_paths', (for_binary items valid_paths st).1 = Return valid_paths'
                  ∧ length valid_paths' = length valid_paths + length items.
Proof.
  intros H. revert valid_paths st.
  induction H as [|[b bp] rest Hbp _ IH]; intros valid_paths st.
  - exists valid_paths. split; [reflexivity | simpl; lia].
  - destruct Hbp as (pre & p & post & r & Hl & Hpre & Hacc). simpl in Hl, Hpre, Hacc.
    rewrite for_binary_cons, (binary_body_accepts _ _ _ _ _ _ _ _ Hl Hpre Hacc).
    destruct (IH (valid_paths ++ [r])
                (mkState (assigned b r (self st))
                   (calls st ++ reads bp ++ validations b (pre ++ [p]))))
      as (valid_paths' & Hret & Hlen).
    exists valid_paths'. split; [exact Hret|].
    rewrite Hlen, length_app. simpl. lia.
Qed.

Lemma for_binary_full items valid_paths st valid_paths' :
  (for_binary items valid_paths st).1 = Return valid_paths' ->
  length valid_paths' = length valid_paths + length items ->
  Forall (fun item => satisfied item.2) items.
Proof.
  revert valid_paths st. induction items as [|[b bp] rest IH]; intros valid_paths st Hret Hlen.
  - constructor.
  - rewrite for_binary_cons in Hret.
    destruct (binary_body_cases b bp valid_paths st) as [H|[H|[H|H]]].
    + destruct H as (ex & _ & Hb). rewrite Hb in Hret. discriminate.
    + destruct H as (l & _ & _ & Hb). rewrite Hb in Hret. exfalso.
      pose proof (for_binary_step rest valid_paths
                    (mkState (self st) (calls st ++ reads bp ++ validations b l))) as [_ Hres].
      rewrite Hret in Hres. destruct Hres as [Hle _]. simpl in Hlen. lia.
    + destruct H as (pre & p & post & r & Hl & Hpre & Hacc & Hb). rewrite Hb in Hret.
      constructor.
      * exists pre, p, post, r. repeat split; try assumption; apply Hacc.
      * apply (IH _ _ Hret). rewrite length_app. simpl in *. lia.
    + destruct H as (pre & p & post & ex & _ & _ & _ & Hb). rewrite Hb in Hret. discriminate.
Qed.

(** X7: the gate passes exactly when every requirement of the instance is
    satisfied: has a candidate its validator accepts, every candidate before
    which is skipped. *)
Theorem gate_passes_iff_satisfied (st : State) :
  (gate st).1 = Return tt
  <-> Forall (fun item => satisfied item.2) (requirements (self st)).
Proof.
  destruct (gate_cases st) as (st1 & _ & _ & _ & _ & [H|[H|H]]).
  - destruct H as (ex & st2 & Hloop & ->). simpl. split; [discriminate|].
    intros Hall. destruct (for_binary_all_satisfied _ [] st1 Hall) as (v & Hret & _).
    rewrite Hloop in Hret. discriminate.
  - destruct H as (valid_paths & st2 & Hloop & _ & ->). simpl. split.
    + destruct (Nat.eqb_spec (length (requirements (self st))) (length valid_paths)) as [He|];
        [|discriminate].
      intros _. apply (for_binary_full _ [] st1 valid_paths).
      * rewrite Hloop. reflexivity.
      * simpl. lia.
    + intros Hall. destruct (for_binary_all_satisfied _ [] st1 Hall) as (v & Hret & Hlen).
      rewrite Hloop in Hret. injection Hret as ->. simpl in Hlen.
      rewrite Hlen, Nat.eqb_refl. reflexivity.
  - destruct H as (Hempty & ->). simpl. rewrite Hempty. split; [constructor | reflexivity].
Qed.

Lemma dict_get_update_ne k k' f (d : Dict) :
  k ≠ k' -> dict_get k (dict_update k' f d) = dict_get k d.
Proof.
  intros Hne. induction d as [|[k'' v''] d IH]; [reflexivity|]. simpl.
  destruct (String.eqb_spec k' k'') as [->|Hne']; simpl.
  - destruct (String.eqb_spec k k''); [contradiction | reflexivity].
  - destruct (String.eqb k k''); [reflexivity | exact IH].
Qed.

Lemma dict_get_elem k v (d : Dict) : NoDup d.*1 -> (k, v) ∈ d -> dict_get k d = Some v.
Proof.
  induction d as [|[k' v'] d IH]; simpl; intros Hnd Hin.
  - inversion Hin.
  - apply NoDup_cons in Hnd as [Hk' Hnd].
    apply elem_of_cons in Hin as [[= -> ->]|Hin].
    + rewrite String.eqb_refl. reflexivity.
    + destruct (String.eqb_spec k k') as [->|_].
      * exfalso. apply Hk'. apply list_elem_of_fmap. exists (k', v). split; [reflexivity | exact Hin].
      * apply IH; assumption.
Qed.

(** One iteration leaves the objects under the other keys alone. *)
Lemma binary_body_frame b bp valid_paths st k :
  k ≠ b ->
  dict_get k (Workflow._binaries (self (binary_body b bp valid_paths st).2))
  = dict_get k (Workflow._binaries (self st)).
Proof.
  intros Hne. destruct (binary_body_cases b bp valid_paths st) as [H|[H|[H|H]]].
  - destruct H as (ex & _ & ->). reflexivity.
  - destruct H as (l & _ & _ & ->). reflexivity.
  - destruct H as (pre & p & post & r & _ & _ & _ & ->). simpl.
    apply dict_get_update_ne. exact Hne.
  - destruct H as (pre & p & post & ex & _ & _ & _ & ->). reflexivity.
Qed.

Lemma for_binary_frame items valid_paths st k :
  k ∉ items.*1 ->
  dict_get k (Workflow._binaries (self (for_binary items valid_paths st).2))
  = dict_get k (Workflow._binaries (self st)).
Proof.
  revert valid_paths st. induction items as [|[b bp] rest IH]; intros valid_paths st Hk.
  - reflexivity.
  - rewrite for_binary_cons. simpl in Hk. apply not_elem_of_cons in Hk as [Hne Hk].
    pose proof (binary_body_frame b bp valid_paths st k Hne) as Hhead.
    destruct (binary_body b bp valid_paths st) as [[valid_paths'|e] st']; simpl in *.
    + rewrite (IH _ _ Hk). exact Hhead.
    + exact Hhead.
Qed.

(** When the loop returns, every requirement is settled in the dictionary. *)
Lemma for_binary_settles items valid_paths st valid_paths' st' :
  NoDup items.*1 ->
  (∀ b bp, (b, bp) ∈ items -> dict_get b (Workflow._binaries (self st)) = Some bp) ->
  for_binary items valid_paths st = (Return valid_paths', st') ->
  Forall (settled (Workflow._binaries (self st'))) items.
Proof.
  revert valid_paths st. induction items as [|[b bp] rest IH]; intros valid_paths st Hnd Hheld Hloop.
  - constructor.
  - simpl in Hnd. apply NoDup_cons in Hnd as [Hb Hnd].
    rewrite for_binary_cons in Hloop.
    assert (Hhere : dict_get b (Workflow._binaries (self st)) = Some bp) by (apply Hheld; left).
    assert (Hrest : ∀ st1, (binary_body b bp valid_paths st).2 = st1 ->
              ∀ b' bp', (b', bp') ∈ rest ->
                        dict_get b' (Workflow._binaries (self st1)) = Some bp').
    { intros st1 <- b' bp' Hin. rewrite binary_body_frame.
      - apply Hheld. right. exact Hin.
      - intros ->. apply Hb. apply list_elem_of_fmap. exists (b, bp'). split; [reflexivity | exact Hin]. }
    assert (Hlast : ∀ st1 v, for_binary rest v st1 = (Return valid_paths', st') ->
              dict_get b (Workflow._binaries (self st'))
              = dict_get b (Workflow._binaries (self st1))).
    { intros st1 v Hl. pose proof (for_binary_frame rest v st1 b Hb) as Hf.
      rewrite Hl in Hf. exact Hf. }
    destruct (binary_body_cases b bp valid_paths st) as [H|[H|[H|H]]].
    + destruct H as (ex & _ & Hbody). rewrite Hbody in Hloop. discriminate.
    + destruct H as (l & Hl & Hall & Hbody). rewrite Hbody in Hloop, Hrest. constructor.
      * right. exists l. repeat split; try assumption. simpl.
        rewrite (Hlast _ _ Hloop). exact Hhere.
      * apply (IH _ _ Hnd (Hrest _ eq_refl) Hloop).
    + destruct H as (pre & p & post & r & Hl & Hpre & Hacc & Hbody).
      rewrite Hbody in Hloop, Hrest. constructor.
      * left. exists pre, p, post, r. repeat split; try assumption; try apply Hacc. simpl.
        rewrite (Hlast _ _ Hloop). simpl. unfold assigned. simpl.
        rewrite dict_get_update, Hhere. reflexivity.
      * apply (IH _ _ Hnd (Hrest _ eq_refl) Hloop).
    + destruct H as (pre & p & post & ex & _ & _ & _ & Hbody). rewrite Hbody in Hloop. discriminate.
Qed.

(** Unless a fault escapes the gate, every requirement is settled in
    [_binaries] when the gate is left. *)
Lemma gate_settles st :
  NoDup (requirements (self st)).*1 ->
  (∀ ex, (gate st).1 ≠ Raise (Uncaught ex)) ->
  Forall (settled (Workflow._binaries (self (gate st).2))) (requirements (self st)).
Proof.
  intros Hnd Hquiet.
  destruct (gate_cases st) as (st1 & _ & Hb & _ & _ & [H|[H|H]]).
  - destruct H as (ex & st2 & _ & Hg). exfalso. apply (Hquiet ex). rewrite Hg. reflexivity.
  - destruct H as (valid_paths & st2 & Hloop & _ & ->). simpl.
    apply (for_binary_settles _ [] st1 valid_paths st2 Hnd); [|exact Hloop].
    intros b bp Hin. rewrite Hb. apply dict_get_elem; assumption.
  - destruct H as (Hempty & _). rewrite Hempty. constructor.
Qed.

Lemma gate_passes_satisfied st :
  (gate st).1 = Return tt ->
  Forall (fun item => satisfied item.2) (requirements (self st)).
Proof.
  destruct (gate_cases st) as (st1 & _ & _ & _ & _ & [H|[H|H]]).
  - destruct H as (ex & st2 & _ & ->). discriminate.
  - destruct H as (valid_paths & st2 & Hloop & _ & ->). simpl.
    destruct (Nat.eqb_spec (length (requirements (self st))) (length valid_paths)) as [He|];
      [|discriminate].
    intros _. apply (for_binary_full _ [] st1 valid_paths).
    + rewrite Hloop. reflexivity.
    + simpl. lia.
  - destruct H as (Hempty & _). rewrite Hempty. constructor.
Qed.

(** X8: when the keys of the mapping are distinct and the gate passes, every
    requirement is held in [_binaries] with the path its validator returned
    for the first of its candidates that was not skipped; its other fields
    are untouched. *)
Theorem gate_records_resolved_paths (st : State) (b : string) (bp : BinaryPath.t) :
  NoDup (requirements (self st)).*1 ->
  (gate st).1 = Return tt ->
  (b, bp) ∈ requirements (self st) ->
  ∃ pre p post r,
    candidate_list bp = Return (pre ++ p :: post)
    ∧ Forall (skips (BinaryPath.validator bp)) pre
    ∧ accepts (BinaryPath.validator bp) p r
    ∧ dict_get b (Workflow._binaries (self (gate st).2))
      = Some (BinaryPath.set_binary_path r bp).
Proof.
  intros Hnd Hpass Hin.
  assert (Hset : Forall (settled (Workflow._binaries (self (gate st).2)))
                   (requirements (self st))).
  { apply gate_settles; [exact Hnd|]. intros ex. rewrite Hpass. discriminate. }
  rewrite Forall_forall in Hset. destruct (Hset _ Hin) as [H|(l & Hl & Hall & _)].
  - exact H.
  - exfalso. pose proof (gate_passes_satisfied st Hpass) as Hsat.
    rewrite Forall_forall in Hsat.
    exact (exhausted_not_satisfied bp l Hl Hall (Hsat _ Hin)).
Qed.

Lemma sample_keys_distinct : NoDup (requirements (self (mkState sample_workflow []))).*1.
Proof. vm_compute. apply NoDup_singleton. Qed.

Lemma tool_in_sample_workflow :
  ("tool", BinaryPath.new tool_resolver tool_validator "tool")
  ∈ requirements (self (mkState sample_workflow [])).
Proof. vm_compute. left. Qed.

Lemma gate_records_resolved_paths_witness :
  ∃ pre p post r,
    candidate_list (BinaryPath.new tool_resolver tool_validator "tool")
      = Return (pre ++ p :: post)
    ∧ Forall (skips tool_validator) pre
    ∧ accepts tool_validator p r
    ∧ dict_get "tool" (Workflow._binaries (self (gate (mkState sample_workflow [])).2))
      = Some (BinaryPath.set_binary_path r (BinaryPath.new tool_resolver tool_validator "tool")).
Proof.
  apply (gate_records_resolved_paths (mkState sample_workflow []) "tool"
           (BinaryPath.new tool_resolver tool_validator "tool")).
  - exact sample_keys_distinct.
  - vm_compute. reflexivity.
  - exact tool_in_sample_workflow.
Defined.

Lemma for_binary_short items valid_paths st valid_paths' :
  (for_binary items valid_paths st).1 = Return valid_paths' ->
  length valid_paths' ≠ length valid_paths + length items ->
  Exists (fun item => ¬ satisfied item.2) items.
Proof.
  revert valid_paths st. induction items as [|[b bp] rest IH]; intros valid_paths st Hret Hlen.
  - simpl in Hret. injection Hret as ->. simpl in Hlen. lia.
  - rewrite for_binary_cons in Hret.
    destruct (binary_body_cases b bp valid_paths st) as [H|[H|[H|H]]].
    + destruct H as (ex & _ & Hb). rewrite Hb in Hret. discriminate.
    + destruct H as (l & Hl & Hall & _). left. simpl.
      exact (exhausted_not_satisfied bp l Hl Hall).
    + destruct H as (pre & p & post & r & _ & _ & _ & Hb). rewrite Hb in Hret.
      right. apply (IH _ _ Hret). rewrite length_app. simpl in *. lia.
    + destruct H as (pre & p & post & ex & _ & _ & _ & Hb). rewrite Hb in Hret. discriminate.
Qed.

(** X9: the gate does not roll back: when the keys of the mapping are
    distinct and the gate raises the binary-validation-failed fault, every
    requirement is settled in [_binaries], the satisfied ones with the path
    their validator returned and the others as they were, and at least one
    requirement is not satisfied. *)
Theorem failed_gate_keeps_resolved_paths (st : State) :
  NoDup (requirements (self st)).*1 ->
  (gate st).1 = Raise (binary_validation_failed (self st)) ->
  Forall (settled (Workflow._binaries (self (gate st).2))) (requirements (self st))
  ∧ Exists (fun item => ¬ satisfied item.2) (requirements (self st)).
Proof.
  intros Hnd Hfail. split.
  - apply gate_settles; [exact Hnd|]. intros ex. rewrite Hfail. discriminate.
  - destruct (gate_cases st) as (st1 & _ & _ & _ & _ & [H|[H|H]]).
    + destruct H as (ex & st2 & _ & Hg). rewrite Hg in Hfail. discriminate.
    + destruct H as (valid_paths & st2 & Hloop & _ & Hg).
      apply (for_binary_short _ [] st1 valid_paths).
      * rewrite Hloop. reflexivity.
      * simpl. intros He. rewrite Hg, He, Nat.eqb_refl in Hfail. discriminate.
    + destruct H as (_ & Hg). rewrite Hg in Hfail. discriminate.
Qed.

Lemma half_satisfied_keys_distinct :
  NoDup (requirements (self (mkState half_satisfied_workflow []))).*1.
Proof.
  vm_compute. apply NoDup_cons. split; [|apply NoDup_singleton].
  intros H. apply list_elem_of_singleton in H. discriminate H.
Qed.

Lemma failed_gate_keeps_resolved_paths_witness :
  Forall (settled (Workflow._binaries (self (gate (mkState half_satisfied_workflow [])).2)))
    (requirements half_satisfied_workflow)
  ∧ Exists (fun item => ¬ satisfied item.2) (requirements half_satisfied_workflow).
Proof.
  apply (failed_gate_keeps_resolved_paths (mkState half_satisfied_workflow [])).
  - exact half_satisfied_keys_distinct.
  - vm_compute. reflexivity.
Defined.

(** ** What the gate leaves alone *)

Lemma same_requirements_refl (d : Dict) : Forall2 same_requirement d d.
Proof. induction d; constructor; [repeat split | assumption]. Qed.

Lemma same_requirements_trans (d1 d2 d3 : Dict) :
  Forall2 same_requirement d1 d2 -> Forall2 same_requirement d2 d3 ->
  Forall2 same_requirement d1 d3.
Proof.
  intros H. revert d3. induction H as [|x y d1 d2 Hxy _ IH]; intros d3 H23.
  - inversion H23. constructor.
  - inversion H23 as [|y' z d2' d3' Hyz Hrest]; subst. constructor; [|apply IH; exact Hrest].
    destruct Hxy as (a1 & b1 & c1 & e1 & f1), Hyz as (a2 & b2 & c2 & e2 & f2).
    repeat split; congruence.
Qed.

Lemma dict_update_same k v (d : Dict) :
  Forall2 same_requirement d (dict_update k (BinaryPath.set_binary_path v) d).
Proof.
  induction d as [|[k' bp] d IH]; simpl; [constructor|].
  destruct (String.eqb k k').
  - constructor; [repeat split | apply same_requirements_refl].
  - constructor; [repeat split | exact IH].
Qed.

Lemma binary_body_same b bp valid_paths st :
  Forall2 same_requirement (Workflow._binaries (self st))
    (Workflow._binaries (self (binary_body b bp valid_paths st).2)).
Proof.
  destruct (binary_body_cases b bp valid_paths st) as [H|[H|[H|H]]].
  - destruct H as (ex & _ & ->). apply same_requirements_refl.
  - destruct H as (l & _ & _ & ->). apply same_requirements_refl.
  - destruct H as (pre & p & post & r & _ & _ & _ & ->). apply dict_update_same.
  - destruct H as (pre & p & post & ex & _ & _ & _ & ->). apply same_requirements_refl.
Qed.

Lemma for_binary_same items valid_paths st :
  Forall2 same_requirement (Workflow._binaries (self st))
    (Workflow._binaries (self (for_binary items valid_paths st).2)).
Proof.
  revert valid_paths st. induction items as [|[b bp] rest IH]; intros valid_paths st.
  - apply same_requirements_refl.
  - rewrite for_binary_cons. pose proof (binary_body_same b bp valid_paths st) as Hhead.
    destruct (binary_body b bp valid_paths st) as [[valid_paths'|e] st']; simpl in *.
    + eapply same_requirements_trans; [exact Hhead | apply IH].
    + exact Hhead.
Qed.

(** X10: whatever its outcome, the gate leaves in [_binaries] the mapping
    the getter returned, item by item in the same order and under the same
    keys, with the same resolver, validator, binary name and
    [path_provided]: only [binary_path] may differ. *)
Theorem gate_only_assigns_paths (st : State) :
  Forall2 same_requirement (requirements (self st))
    (Workflow._binaries (self (gate st).2)).
Proof.
  destruct (gate_cases st) as (st1 & _ & Hb & _ & _ & [H|[H|H]]).
  - destruct H as (ex & st2 & Hloop & ->). simpl.
    pose proof (for_binary_same (requirements (self st)) [] st1) as Hsame.
    rewrite Hloop, Hb in Hsame. exact Hsame.
  - destruct H as (valid_paths & st2 & Hloop & _ & ->). simpl.
    pose proof (for_binary_same (requirements (self st)) [] st1) as Hsame.
    rewrite Hloop, Hb in Hsame. exact Hsame.
  - destruct H as (Hempty & ->). simpl. rewrite Hempty.
    unfold requirements in Hempty.
    destruct (bool_decide_reflect (Workflow._binaries (self st) = [])) as [->|Hne].
    + constructor.
    + contradiction.
Qed.

(** ** The order of the calls *)

Lemma executed_log bp b l : executed (reads bp ++ validations b l) = [].
Proof. rewrite executed_app, executed_reads, executed_validations. reflexivity. Qed.

Lemma binary_body_extends b bp valid_paths st :
  ∃ new, calls (binary_body b bp valid_paths st).2 = calls st ++ new ∧ executed new = [].
Proof.
  destruct (binary_body_cases b bp valid_paths st) as [H|[H|[H|H]]].
  - destruct H as (ex & _ & ->). exists []. split; [symmetry; apply app_nil_r | reflexivity].
  - destruct H as (l & _ & _ & ->). eexists. split; [reflexivity | apply executed_log].
  - destruct H as (pre & p & post & r & _ & _ & _ & ->).
    eexists. split; [reflexivity | apply executed_log].
  - destruct H as (pre & p & post & ex & _ & _ & _ & ->).
    eexists. split; [reflexivity | apply executed_log].
Qed.

Lemma for_binary_extends items valid_paths st :
  ∃ new, calls (for_binary items valid_paths st).2 = calls st ++ new ∧ executed new = [].
Proof.
  revert valid_paths st. induction items as [|[b bp] rest IH]; intros valid_paths st.
  - exists []. split; [symmetry; apply app_nil_r | reflexivity].
  - rewrite for_binary_cons.
    destruct (binary_body_extends b bp valid_paths st) as (new1 & Hlog1 & Hex1).
    destruct (binary_body b bp valid_paths st) as [[valid_paths'|e] st']; simpl in *.
    + destruct (IH valid_paths' st') as (new2 & Hlog2 & Hex2).
      exists (new1 ++ new2). split.
      * rewrite Hlog2, Hlog1, app_assoc. reflexivity.
      * rewrite executed_app, Hex1, Hex2. reflexivity.
    + exists new1. split; assumption.
Qed.

Lemma gate_extends st :
  ∃ new, calls (gate st).2 = calls st ++ new ∧ executed new = [].
Proof.
  destruct (gate_cases st) as (st1 & Hget & _ & _ & _ & H).
  assert (Hfirst : ∃ new, calls st1 = calls st ++ new ∧ executed new = []).
  { rewrite binaries_spec in Hget.
    destruct (bool_decide (Workflow._binaries (self st) = [])); injection Hget as _ <-.
    - eexists. split; reflexivity.
    - exists []. split; [symmetry; apply app_nil_r | reflexivity]. }
  assert (Hloop : ∀ st2, (for_binary (requirements (self st)) [] st1).2 = st2 ->
            ∃ new, calls st2 = calls st ++ new ∧ executed new = []).
  { intros st2 <-. destruct Hfirst as (new1 & Hlog1 & Hex1).
    destruct (for_binary_extends (requirements (self st)) [] st1) as (new2 & Hlog2 & Hex2).
    exists (new1 ++ new2). split.
    - rewrite Hlog2, Hlog1, app_assoc. reflexivity.
    - rewrite executed_app, Hex1, Hex2. reflexivity. }
  destruct H as [H|[H|H]].
  - destruct H as (ex & st2 & Hl & ->). apply Hloop. rewrite Hl. reflexivity.
  - destruct H as (valid_paths & st2 & Hl & _ & ->). apply Hloop. rewrite Hl. reflexivity.
  - destruct H as (_ & ->). eexists. split; reflexivity.
Qed.

(** What [run_body] appends to the log: the executions of a prefix of the
    actions. *)
Lemma run_body_extends st :
  ∃ done, done `prefix_of` Workflow.actions (self st)
          ∧ calls (run_body st).2 = calls st ++ executions done.
Proof.
  destruct (run_body_cases st) as [[_ ->]|[[_ ->]|(pre & a & post & ex & Hl & _ & _ & ->)]]; simpl.
  - exists []. split; [apply prefix_nil | symmetry; apply app_nil_r].
  - exists (Workflow.actions (self st)). split; reflexivity.
  - exists (pre ++ [a]). split; [|reflexivity].
    exists post. rewrite Hl, <- app_assoc. reflexivity.
Qed.

(** X11: every call of the gate precedes every execution of an action: what
    [run] appends to the log is a part that executes nothing, followed by the
    executions of a prefix of the action list, in the order of the list. *)
Theorem validation_precedes_execution (st : State) :
  ∃ gate_log done,
    calls (run st).2 = calls st ++ gate_log ++ executions done
    ∧ executed gate_log = []
    ∧ done `prefix_of` Workflow.actions (self st).
Proof.
  destruct (gate_extends st) as (new & Hlog & Hex).
  pose proof (gate_preserves st) as [(_ & Hactions & _) _].
  rewrite run_unfold. destruct (gate st) as [[[]|e] st'] eqn:Hg; simpl in *.
  - destruct (run_body_extends st') as (done & Hpre & Hrun).
    exists new, done. rewrite Hrun, Hlog, <- app_assoc, <- Hactions.
    repeat split; assumption.
  - exists new, []. rewrite Hlog. simpl. rewrite app_nil_r.
    repeat split; [assumption | apply prefix_nil].
Qed.

(** ** Validators and their candidates *)

Lemma validated_reads bp : validated (reads bp) = [].
Proof. unfold reads. destruct (BinaryPath.path_provided bp); reflexivity. Qed.

Lemma binary_body_validated b bp valid_paths st pair :
  pair ∈ validated (calls (binary_body b bp valid_paths st).2) ->
  pair ∈ validated (calls st)
  ∨ ∃ l p, candidate_list bp = Return l ∧ p ∈ l ∧ pair = (b, p).
Proof.
  destruct (candidate_list bp) as [l|ex] eqn:Hl.
  - destruct (binary_body_log b bp valid_paths st l Hl) as (tried & [rest ->] & ->).
    rewrite !validated_app, validated_reads, validated_validations. simpl.
    intros Hin. apply elem_of_app in Hin as [Hin|Hin]; [left; exact Hin|].
    apply list_elem_of_fmap in Hin as (p & -> & Hp).
    right. exists (tried ++ rest), p. repeat split.
    apply elem_of_app. left. exact Hp.
  - destruct (binary_body_cases b bp valid_paths st) as [H|[H|[H|H]]].
    + destruct H as (ex' & _ & ->). intros Hin. left. exact Hin.
    + destruct H as (l & Hl' & _). congruence.
    + destruct H as (pre & p & post & r & Hl' & _). congruence.
    + destruct H as (pre & p & post & ex' & Hl' & _). congruence.
Qed.

Lemma for_binary_validated items valid_paths st pair :
  pair ∈ validated (calls (for_binary items valid_paths st).2) ->
  pair ∈ validated (calls st)
  ∨ ∃ bp l, (pair.1, bp) ∈ items ∧ candidate_list bp = Return l ∧ pair.2 ∈ l.
Proof.
  revert valid_paths st. induction items as [|[b bp] rest IH]; intros valid_paths st Hin.
  - left. exact Hin.
  - rewrite for_binary_cons in Hin.
    assert (Hhead : pair ∈ validated (calls (binary_body b bp valid_paths st).2) ->
              pair ∈ validated (calls st)
              ∨ ∃ bp' l, (pair.1, bp') ∈ (b, bp) :: rest
                         ∧ candidate_list bp' = Return l ∧ pair.2 ∈ l).
    { intros H. destruct (binary_body_validated _ _ _ _ _ H) as [H'|(l & p & Hl & Hp & ->)].
      - left. exact H'.
      - right. exists bp, l. repeat split; [left | exact Hl | exact Hp]. }
    destruct (binary_body b bp valid_paths st) as [[valid_paths'|e] st']; simpl in *.
    + destruct (IH _ _ Hin) as [H|(bp' & l & Hin' & Hl & Hp)].
      * apply Hhead, H.
      * right. exists bp', l. repeat split; [right; exact Hin' | exact Hl | exact Hp].
    + apply Hhead, Hin.
Qed.

(** X12: a validator is handed nothing but candidates of a requirement
    stored under the binary name it is called for: every validation logged
    during [run] was already in the log or is that of a candidate of a
    requirement of the instance, under that requirement's key. *)
Theorem validator_sees_only_candidates (st : State) (binary path : string) :
  (binary, path) ∈ validated (calls (run st).2) ->
  (binary, path) ∈ validated (calls st)
  ∨ ∃ bp l, (binary, bp) ∈ requirements (self st)
            ∧ candidate_list bp = Return l ∧ path ∈ l.
Proof.
  assert (Hgate : (binary, path) ∈ validated (calls (gate st).2) ->
            (binary, path) ∈ validated (calls st)
            ∨ ∃ bp l, (binary, bp) ∈ requirements (self st)
                      ∧ candidate_list bp = Return l ∧ path ∈ l).
  { destruct (binaries_returns st) as (st1' & Hget' & _ & _ & _ & _ & Hval).
    destruct (gate_cases st) as (st1 & Hget & _ & _ & _ & H).
    rewrite Hget in Hget'. injection Hget' as <-.
    assert (Hloop : ∀ st2, (for_binary (requirements (self st)) [] st1).2 = st2 ->
              (binary, path) ∈ validated (calls st2) ->
              (binary, path) ∈ validated (calls st)
              ∨ ∃ bp l, (binary, bp) ∈ requirements (self st)
                        ∧ candidate_list bp = Return l ∧ path ∈ l).
    { intros st2 <- Hin. rewrite <- Hval.
      apply (for_binary_validated _ _ _ (binary, path) Hin). }
    destruct H as [H|[H|H]].
    - destruct H as (ex & st2 & Hl & ->). simpl. apply Hloop. rewrite Hl. reflexivity.
    - destruct H as (valid_paths & st2 & Hl & _ & ->). simpl. apply Hloop. rewrite Hl. reflexivity.
    - destruct H as (_ & ->). simpl. rewrite validated_app. simpl. rewrite app_nil_r.
      intros Hin. left. exact Hin. }
  rewrite run_unfold. destruct (gate st) as [[[]|e] st'] eqn:Hg; simpl in *.
  - destruct (run_body_quiet st') as (_ & -> & _). exact Hgate.
  - exact Hgate.
Qed.

Lemma validator_sees_only_candidates_witness :
  ("tool", "/usr/bin/tool") ∈ validated (calls (mkState sample_workflow [])) 
  ∨ ∃ bp l, ("tool", bp) ∈ requirements sample_workflow
            ∧ candidate_list bp = Return l ∧ "/usr/bin/tool" ∈ l.
Proof.
  apply (validator_sees_only_candidates (mkState sample_workflow []) "tool" "/usr/bin/tool").
  vm_compute. right. left.
Defined.

(** ** The outcomes of [run] *)

(** X13: [run] returns exactly when the gate passes, there is at least one
    action and every action completes; every action has then been executed
    once, in the order of the list. *)
Theorem run_succeeds_iff (st : State) :
  ((run st).1 = Return tt
   <-> (gate st).1 = Return tt
       ∧ Workflow.actions (self st) ≠ []
       ∧ Forall completes (Workflow.actions (self st)))
  ∧ ((run st).1 = Return tt ->
     executed (calls (run st).2) = executed (calls st) ++ Workflow.actions (self st)).
Proof.
  pose proof (gate_preserves st) as [(_ & Hactions & _) Hex].
  rewrite run_unfold. destruct (gate st) as [[[]|e] st'] eqn:Hg; simpl in *.
  - rewrite <- Hactions.
    destruct (run_body_cases st') as [[He Hr]|[[Hall Hr]|(pre & a & post & ex & Hl & Hpre & Ha & Hr)]];
      rewrite Hr; simpl.
    + split; [|discriminate]. split; [discriminate|]. intros (_ & Hne & _). contradiction.
    + split.
      * split; [|reflexivity]. intros _. repeat split; [|exact Hall].
        intros He. rewrite run_body_spec in Hr.
        rewrite bool_decide_eq_true_2 in Hr by exact He. discriminate.
      * intros _. rewrite executed_app, executed_executions, Hex. reflexivity.
    + split; [|discriminate]. split; [discriminate|]. intros (_ & _ & Hall). exfalso.
      rewrite Hl in Hall. apply Forall_app in Hall as [_ Hall].
      apply Forall_cons in Hall as [Hc _]. unfold completes in Hc. congruence.
  - split; [|discriminate]. split; [discriminate | intros [H _]; discriminate].
Qed.

(** X14: every fault [run] raises is one of five: the binary-validation
    failed fault, a fault the gate did not catch, or the no-actions fault,
    and then no action has been executed; or the fault of the first action
    that raised, a [WorkflowFailedError] or [WorkflowUnknownError] by the
    class of what it raised, carrying that action's name, and then exactly
    the actions up to that one have been executed. *)
Theorem run_faults_are_attributed (st : State) (e : Exn) :
  (run st).1 = Raise e ->
  ((e = binary_validation_failed (self st)
    ∨ (∃ ex, e = Uncaught ex)
    ∨ (e = no_actions_registered (self st) ∧ Workflow.actions (self st) = []))
   ∧ executed (calls (run st).2) = executed (calls st))
  ∨ ∃ pre a post ex,
      Workflow.actions (self st) = pre ++ a :: post
      ∧ Forall completes pre
      ∧ Action.execute a = Raise ex
      ∧ e = action_fault (self st) a ex
      ∧ executed (calls (run st).2) = executed (calls st) ++ pre ++ [a].
Proof.
  pose proof (gate_preserves st) as [(Hname & Hactions & _) Hex].
  pose proof (gate_faults st) as Hfaults.
  rewrite run_unfold. destruct (gate st) as [[[]|e'] st'] eqn:Hg; simpl in *.
  - rewrite <- Hactions.
    destruct (run_body_cases st') as [[He Hr]|[[Hall Hr]|(pre & a & post & ex & Hl & Hpre & Ha & Hr)]];
      rewrite Hr; simpl.
    + intros [= <-]. left. split; [|exact Hex]. right. right. split; [|exact He].
      unfold no_actions_registered. rewrite Hname. reflexivity.
    + discriminate.
    + intros [= <-]. right. exists pre, a, post, ex. repeat split; try assumption.
      * unfold action_fault. rewrite Hname. reflexivity.
      * rewrite executed_app, executed_executions, Hex. reflexivity.
  - intros [= <-]. left. split; [|exact Hex].
    destruct (Hfaults e' eq_refl) as [->|[ex ->]].
    + left. reflexivity.
    + right. left. exists ex. reflexivity.
Qed.

Lemma run_faults_are_attributed_witness :
  ((WorkflowFailedError (PyStr "SampleWorkflow") (Some "ResolveDependencies") "pip install failed"
      = binary_validation_failed sample_workflow
    ∨ (∃ ex, WorkflowFailedError (PyStr "SampleWorkflow") (Some "ResolveDependencies")
               "pip install failed" = Uncaught ex)
    ∨ (WorkflowFailedError (PyStr "SampleWorkflow") (Some "ResolveDependencies")
         "pip install failed" = no_actions_registered sample_workflow
       ∧ Workflow.actions sample_workflow = []))
   ∧ executed (calls (run (mkState sample_workflow [])).2) = executed [])
  ∨ ∃ pre a post ex,
      Workflow.actions sample_workflow = pre ++ a :: post
      ∧ Forall completes pre
      ∧ Action.execute a = Raise ex
      ∧ WorkflowFailedError (PyStr "SampleWorkflow") (Some "ResolveDependencies")
          "pip install failed" = action_fault sample_workflow a ex
      ∧ executed (calls (run (mkState sample_workflow [])).2) = executed [] ++ pre ++ [a].
Proof.
  apply (run_faults_are_attributed (mkState sample_workflow [])).
  vm_compute. reflexivity.
Defined.

Lemma run_succeeds_iff_witness :
  executed (calls (run (mkState smooth_workflow [])).2)
  = executed [] ++ [copy_source; compile_source].
Proof.
  apply (proj2 (run_succeeds_iff (mkState smooth_workflow []))).
  vm_compute. reflexivity.
Defined.

(** ** The mapping, further *)

(** X15: a non-empty mapping assigned through the setter is what the getter
    returns next, without a call of the extension points; an empty mapping
    assigned through the setter is not kept: the next access computes the
    mapping from the extension points. *)
Theorem setter_getter_round_trip (st : State) (d : Dict) :
  let st1 := (binaries_setter d st).2 in
  (d ≠ [] -> binaries st1 = (Return d, st1))
  ∧ (d = [] ->
     let computed :=
       binaries_of (Workflow.get_resolvers (self st)) (Workflow.get_validators (self st)) in
     binaries st1 =
       (Return computed,
        mkState (Workflow.set_binaries computed (self st))
                (calls st ++ [CallGetResolvers; CallGetValidators]))).
Proof.
  intros st1. split.
  - intros Hne. rewrite binaries_cached; [reflexivity | exact Hne].
  - intros ->. rewrite binaries_spec. reflexivity.
Qed.

Lemma setter_getter_round_trip_witness :
  let st1 := (binaries_setter [("tool", overridden)] (mkState bare_workflow [])).2 in
  binaries st1 = (Return [("tool", overridden)], st1).
Proof.
  apply (proj1 (setter_getter_round_trip (mkState bare_workflow []) [("tool", overridden)])).
  discriminate.
Defined.

Lemma dict_set_keys k v (d : Dict) :
  (dict_set k v d).*1 = if bool_decide (k ∈ d.*1) then d.*1 else d.*1 ++ [k].
Proof.
  induction d as [|[k' v'] d IH]; [reflexivity|].
  cbn [dict_set]. rewrite (fmap_cons fst (k', v') d). cbn [fst].
  destruct (String.eqb_spec k k') as [->|Hne].
  - rewrite bool_decide_eq_true_2 by left. reflexivity.
  - rewrite (fmap_cons fst (k', v') (dict_set k v d)), IH. cbn [fst].
    destruct (decide (k ∈ d.*1)) as [Hin|Hout].
    + rewrite !bool_decide_eq_true_2; [reflexivity | right; exact Hin | exact Hin].
    + rewrite !bool_decide_eq_false_2; [reflexivity | | exact Hout].
      intros H. apply elem_of_cons in H as [H|H]; contradiction.
Qed.

Lemma dict_set_NoDup k v (d : Dict) : NoDup d.*1 -> NoDup (dict_set k v d).*1.
Proof.
  intros H. rewrite dict_set_keys. destruct (decide (k ∈ d.*1)) as [Hin|Hout].
  - rewrite bool_decide_eq_true_2 by exact Hin. exact H.
  - rewrite bool_decide_eq_false_2 by exact Hout.
    apply NoDup_app. repeat split; [exact H | | apply NoDup_singleton].
    intros x Hx Hx'. apply list_elem_of_singleton in Hx'. subst. contradiction.
Qed.

Lemma dict_set_elem k v (d : Dict) item :
  item ∈ dict_set k v d -> item = (k, v) ∨ item ∈ d.
Proof.
  induction d as [|[k' v'] d IH]; simpl; intros H.
  - apply list_elem_of_singleton in H. left. exact H.
  - destruct (String.eqb k k').
    + apply elem_of_cons in H as [H|H]; [left; exact H | right; right; exact H].
    + apply elem_of_cons in H as [H|H]; [right; rewrite H; left|].
      destruct (IH H) as [H'|H']; [left; exact H' | right; right; exact H'].
Qed.

Lemma dict_set_length k v (d : Dict) : length (dict_set k v d) ≤ S (length d).
Proof.
  induction d as [|[k' v'] d IH]; simpl; [lia|].
  destruct (String.eqb k k'); simpl; lia.
Qed.

(** The invariant of the dictionary comprehension. *)
Lemma pair_up_invariant (pairs : list (Resolver.t * Validator.t)) (d : Dict)
    (P : string * BinaryPath.t -> Prop) :
  (∀ rv, rv ∈ pairs ->
         P (Resolver.binary rv.1, BinaryPath.new rv.1 rv.2 (Resolver.binary rv.1))) ->
  NoDup d.*1 -> Forall P d ->
  NoDup (fold_left pair_up pairs d).*1
  ∧ Forall P (fold_left pair_up pairs d)
  ∧ length (fold_left pair_up pairs d) ≤ length d + length pairs.
Proof.
  revert d. induction pairs as [|rv pairs IH]; intros d Hnew Hnd Hall.
  - simpl. repeat split; [assumption | assumption | lia].
  - simpl fold_left.
    destruct (IH (pair_up d rv)) as (H1 & H2 & H3).
    + intros rv' Hin. apply Hnew. right. exact Hin.
    + apply dict_set_NoDup. exact Hnd.
    + apply Forall_forall. intros item Hin.
      destruct (dict_set_elem _ _ _ _ Hin) as [->|Hin'].
      * apply Hnew. left.
      * rewrite Forall_forall in Hall. apply Hall. exact Hin'.
    + repeat split; [assumption | assumption|].
      assert (Hlen : length (pair_up d rv) ≤ S (length d)) by apply dict_set_length.
      cbn [length]. lia.
Qed.

(** X16: the mapping computed from the extension points has distinct keys
    and at most as many items as the shorter of the two lists; each item is
    stored under the binary name of its resolver, which is also the item's
    [binary], has no path and no override, and pairs a resolver and a
    validator that stand at the same position of the two lists. *)
Theorem binaries_of_well_formed (resolvers : list Resolver.t) (validators : list Validator.t) :
  NoDup (binaries_of resolvers validators).*1
  ∧ length (binaries_of resolvers validators) ≤ length resolvers `min` length validators
  ∧ ∀ k bp, (k, bp) ∈ binaries_of resolvers validators ->
      Resolver.binary (BinaryPath.resolver bp) = k
      ∧ BinaryPath.binary bp = k
      ∧ BinaryPath.binary_path bp = PyNone
      ∧ BinaryPath.path_provided bp = false
      ∧ ∃ i, resolvers !! i = Some (BinaryPath.resolver bp)
             ∧ validators !! i = Some (BinaryPath.validator bp).
Proof.
  rewrite binaries_of_fold.
  destruct (pair_up_invariant (zip resolvers validators) []
              (fun item =>
                 Resolver.binary (BinaryPath.resolver item.2) = item.1
                 ∧ BinaryPath.binary item.2 = item.1
                 ∧ BinaryPath.binary_path item.2 = PyNone
                 ∧ BinaryPath.path_provided item.2 = false
                 ∧ ∃ i, resolvers !! i = Some (BinaryPath.resolver item.2)
                        ∧ validators !! i = Some (BinaryPath.validator item.2)))
    as (Hnd & Hall & Hlen).
  - intros [r v] Hin. simpl. repeat split.
    apply list_elem_of_lookup in Hin as [i Hi]. exists i.
    apply lookup_zip_with_Some in Hi as (r' & v' & [= <- <-] & Hr & Hv).
    split; assumption.
  - constructor.
  - constructor.
  - split; [exact Hnd | split].
    + simpl in Hlen. rewrite length_zip_with in Hlen. exact Hlen.
    + intros k bp Hin. rewrite Forall_forall in Hall. exact (Hall _ Hin).
Qed.

(** With an empty mapping the gate asks the extension points and passes. *)
Lemma empty_requirements_gate st :
  requirements (self st) = [] ->
  gate st =
  (Return tt,
   mkState (self st)
     (calls st ++ [CallGetResolvers; CallGetValidators; CallGetResolvers; CallGetValidators])).
Proof.
  intros Hreq. destruct (gate_cases st) as (st1 & _ & _ & _ & _ & [H|[H|H]]).
  - destruct H as (ex & st2 & Hloop & _). rewrite Hreq in Hloop. discriminate Hloop.
  - destruct H as (valid_paths & st2 & _ & Hne & _). contradiction.
  - destruct H as (_ & ->). reflexivity.
Qed.

Lemma zip_no_validators (resolvers : list Resolver.t) :
  zip resolvers (@nil Validator.t) = [].
Proof. destruct resolvers; reflexivity. Qed.

(** X17: an instance whose mapping is empty and whose validator extension
    point yields no validators has no requirement, however many resolvers it
    declares: the gate passes, no resolver's candidates are read and no
    validator is called, and [run] is the action pipeline. *)
Theorem missing_validators_skip_validation (st : State) :
  Workflow._binaries (self st) = [] ->
  Workflow.get_validators (self st) = [] ->
  let st' := mkState (self st)
               (calls st ++ [CallGetResolvers; CallGetValidators;
                             CallGetResolvers; CallGetValidators]) in
  requirements (self st) = []
  ∧ gate st = (Return tt, st')
  ∧ run st = run_body st'
  ∧ resolved (calls (run st).2) = resolved (calls st)
  ∧ validated (calls (run st).2) = validated (calls st).
Proof.
  intros Hraw Hval st'.
  assert (Hreq : requirements (self st) = []).
  { unfold requirements. rewrite bool_decide_eq_true_2 by exact Hraw.
    rewrite Hval, binaries_of_fold, zip_no_validators. reflexivity. }
  pose proof (empty_requirements_gate st Hreq) as Hgate. fold st' in Hgate.
  assert (Hrun : run st = run_body st') by (rewrite run_unfold, Hgate; reflexivity).
  destruct (run_body_quiet st') as (Hr & Hv & _).
  repeat split; try assumption.
  - rewrite Hrun, Hr. subst st'. simpl. rewrite resolved_app. simpl. apply app_nil_r.
  - rewrite Hrun, Hv. subst st'. simpl. rewrite validated_app. simpl. apply app_nil_r.
Qed.

Lemma missing_validators_skip_validation_witness :
  requirements unvalidated_workflow = []
  ∧ gate (mkState unvalidated_workflow []) =
    (Return tt, mkState unvalidated_workflow
                  [CallGetResolvers; CallGetValidators; CallGetResolvers; CallGetValidators])
  ∧ run (mkState unvalidated_workflow []) =
    run_body (mkState unvalidated_workflow
                [CallGetResolvers; CallGetValidators; CallGetResolvers; CallGetValidators])
  ∧ resolved (calls (run (mkState unvalidated_workflow [])).2) = resolved []
  ∧ validated (calls (run (mkState unvalidated_workflow [])).2) = validated [].
Proof.
  exact (missing_validators_skip_validation (mkState unvalidated_workflow []) eq_refl eq_refl).
Defined.

(** ** Overrides that are not lists *)

Lemma characters_concat s :
  String.concat EmptyString (characters s) = s.
Proof.
  unfold characters. induction s as [|a rest IH]; [reflexivity|].
  cbn [String.list_ascii_of_string fmap list_fmap].
  change (String.concat EmptyString
            (String a EmptyString :: ((fun c => String c EmptyString)
                                        <$> String.list_ascii_of_string rest)))
    with (match (fun c => String c EmptyString) <$> String.list_ascii_of_string rest with
          | [] => String a EmptyString
          | _ :: _ =>
              String a (String.concat EmptyString
                          ((fun c => String c EmptyString)
                             <$> String.list_ascii_of_string rest))
          end).
  rewrite IH. destruct rest; reflexivity.
Qed.

Lemma characters_are_single s : Forall (fun c => String.length c = 1) (characters s).
Proof. apply Forall_fmap, Forall_forall. intros c _. reflexivity. Qed.

Lemma characters_length s : length (characters s) = String.length s.
Proof.
  unfold characters. rewrite length_fmap.
  induction s as [|a rest IH]; [reflexivity | simpl; rewrite IH; reflexivity].
Qed.

(** X18: with [path_provided] set, the loop of line 43 iterates whatever
    [binary_path] holds. A string is iterated character by character: the
    candidates are the characters of the string, in order (one-character
    strings whose concatenation is the string), no resolver is read, and a
    string of more than one character is not itself among the candidates.
    [None] cannot be iterated: the iteration raises a [TypeError] that the
    gate does not catch, before any validation of that requirement. *)
Theorem override_is_iterated (bp : BinaryPath.t) (binary : string)
    (valid_paths : list PyVal) (st : State) :
  BinaryPath.path_provided bp = true ->
  (∀ s, BinaryPath.binary_path bp = PyStr s ->
        candidates bp st = (Return (characters s), st)
        ∧ Forall (fun c => String.length c = 1) (characters s)
        ∧ String.concat EmptyString (characters s) = s
        ∧ (1 < String.length s -> s ∉ characters s))
  ∧ (BinaryPath.binary_path bp = PyNone ->
     binary_body binary bp valid_paths st =
       (Raise (Uncaught (mkExn (OtherException "TypeError") "'NoneType' object is not iterable")),
        st)).
Proof.
  intros Hp. split.
  - intros s Hs. split; [|split; [|split]].
    + rewrite candidates_spec. unfold candidate_list, reads. rewrite Hp, Hs. simpl.
      rewrite app_nil_r, state_eta. reflexivity.
    + apply characters_are_single.
    + apply characters_concat.
    + intros Hlong Hin. pose proof (characters_are_single s) as Hall.
      rewrite Forall_forall in Hall. specialize (Hall s Hin). lia.
  - intros Hn. unfold binary_body, bind. rewrite candidates_spec.
    unfold candidate_list. rewrite Hp, Hn. reflexivity.
Qed.

Lemma override_is_iterated_witness :
  candidates string_override (mkState bare_workflow [])
  = (Return ["/"; "u"; "s"; "r"; "/"; "b"; "i"; "n"; "/"; "t"; "o"; "o"; "l"],
     mkState bare_workflow []).
Proof.
  exact (proj1 (proj1 (override_is_iterated string_override "tool" []
                         (mkState bare_workflow []) eq_refl)
                  "/usr/bin/tool" eq_refl)).
Defined.

(** ** The candidates the gate tries *)





(** The same override within [run]: the validator, which accepts
    [/usr/bin/tool], is never handed that path, and the gate fails. *)
Lemma string_override_never_tried :
  (run (mkState string_override_workflow [])).1
    = Raise (binary_validation_failed string_override_workflow)
  ∧ (("tool", "/usr/bin/tool")
       ∉ validated (calls (run (mkState string_override_workflow [])).2))
  ∧ accepts tool_validator "/usr/bin/tool" (PyStr "/usr/bin/tool").
Proof.
  split; [vm_compute; reflexivity | split; [|split; reflexivity]].
  vm_compute. intros H.
  repeat (apply elem_of_cons in H as [H|H]; [discriminate H|]).
  inversion H.
Qed.


